(** * MCP server (src/app.py): store, task queue, processor and rate limiter

    A shallow embedding of the in-memory core of [app.py]: the two keyed
    stores [documents_db] and [contexts_db], the [TaskQueue] with its pending
    and failed lists, the background [process_task_queue] loop, the
    [RateLimiter], and the synchronous endpoints that read or mutate them.

    Conventions.
    - Python dictionaries are [gmap string _]; Python lists are [list _].
    - Every reading of the environment ([time.time()], [datetime.now()],
      [uuid.uuid4()]) is an explicit argument of the operation that takes it.
    - [time.time()] is a number of seconds; it is modelled by an exact
      rational [Q].
    - A raised exception is a value of [exn]; an endpoint returns its
      outcome together with the state it leaves behind. *)

From Stdlib Require Import QArith Lqa.
From stdpp Require Import gmap strings list fin_maps pretty sorting.

Local Open Scope string_scope.
Local Open Scope list_scope.

Set Warnings "-register-all".

(** ** Python values carried by task dictionaries *)

Inductive pyval : Type :=
  | PNone
  | PBool (b : bool)
  | PInt (z : Z)
  | PStr (s : string)
  | PList (l : list pyval)
  | PDict (d : gmap string pyval).

(** A Python [dict] with string keys. *)
Abbreviation pydict := (gmap string pyval).

(** ** Data models (app.py, lines 24-40) *)

Record Document := mkDocument {
  doc_id : string;
  doc_content : string;
  doc_metadata : pydict;
  doc_created_at : string
}.

Record Context := mkContext {
  ctx_id : string;
  ctx_name : string;
  ctx_documents : list string;
  ctx_description : option string;
  ctx_created_at : string;
  ctx_updated_at : string
}.

(** [TaskQueue]: [tasks] is the pending list, [failed_tasks] the failed one. *)
Record TaskQueue := mkTaskQueue {
  tasks : list pydict;
  failed_tasks : list pydict
}.

(** ** RateLimiter (app.py, lines 42-58) *)

Record RateLimiter := mkRateLimiter {
  requests_per_minute : Z;
  request_times : list Q
}.

(** [RateLimiter.__init__] *)
Definition RateLimiter_init (rpm : Z) : RateLimiter :=
  {| requests_per_minute := rpm; request_times := [] |}.

(** The test [current_time - t < 60] of the purge. *)
Definition in_window (current_time t : Q) : bool :=
  negb (Qle_bool 60 (current_time - t)).

(** [is_rate_limited], with [current_time] the reading of [time.time()].
    Returns the boolean answer and the limiter after the call. *)
Definition is_rate_limited (current_time : Q) (rl : RateLimiter)
  : bool * RateLimiter :=
  let kept := List.filter (in_window current_time) (request_times rl) in
  if (requests_per_minute rl <=? Z.of_nat (length kept))%Z
  then (true, {| requests_per_minute := requests_per_minute rl;
                 request_times := kept |})
  else (false, {| requests_per_minute := requests_per_minute rl;
                  request_times := kept ++ [current_time] |}).

(** ** Exceptions *)

Inductive exn : Type :=
  | HTTPException (status_code : Z) (detail : string)
  | TypeError (msg : string)
  | ValueError (msg : string)
  | IndexError (msg : string)
  | ValidationError (model : string) (errors : list (string * string)).

(** The outcome of a computation that may raise. *)
Abbreviation result A := (exn + A)%type.

Definition newline : string := String (Ascii.ascii_of_nat 10) EmptyString.

(** [str(e)].  For a [ValidationError] this follows the layout of the
    report pydantic prints (a count line, then one entry per offending
    field) without its type details; the wording of pydantic's messages
    varies with its version, and only that the text is not empty is relied
    on. *)
Definition exn_str (e : exn) : string :=
  match e with
  | HTTPException _ detail => detail
  | TypeError msg | ValueError msg | IndexError msg => msg
  | ValidationError model errors =>
      pretty (length errors) +:+ " validation error"
        +:+ (if decide (length errors = 1) then EmptyString else "s")
        +:+ " for " +:+ model
        +:+ String.concat EmptyString
              ((fun fe => newline +:+ fst fe +:+ newline +:+ "  " +:+ snd fe)
                 <$> errors)
  end.

(** ** Model construction: [Document] and [Context] from keyword arguments

    The field coercions belong to pydantic, not to [app.py]; they are an
    interface here.  [validate_str v] is the [str] accepted for [v], if any;
    [validate_dict v] the [Dict]. *)

Class FieldValidators := {
  validate_str : pyval -> option string;
  validate_dict : pyval -> option pydict
}.

(** The validators that accept exactly the values of the annotated type. *)
Definition strict_validators : FieldValidators :=
  {| validate_str := fun v => match v with PStr s => Some s | _ => None end;
     validate_dict := fun v => match v with PDict d => Some d | _ => None end |}.

Section Construction.
Context {FV : FieldValidators}.

(** [List[str]] *)
Definition validate_str_list (v : pyval) : option (list string) :=
  match v with
  | PList l => mapM validate_str l
  | _ => None
  end.

(** [Optional[str]] *)
Definition validate_opt_str (v : pyval) : option (option string) :=
  match v with
  | PNone => Some None
  | _ => Some <$> validate_str v
  end.

(** A field without default: absent is an error. *)
Definition required {A} (validate : pyval -> option A) (k : string)
    (data : pydict) : list (string * string) + A :=
  match data !! k with
  | None => inl [(k, "field required")]
  | Some v =>
      match validate v with
      | Some a => inr a
      | None => inl [(k, "value is not valid")]
      end
  end.

(** A field with a default (or default factory): [default] is used when
    the key is absent. *)
Definition defaulted {A} (validate : pyval -> option A) (k : string)
    (default : A) (data : pydict) : list (string * string) + A :=
  match data !! k with
  | None => inr default
  | Some v =>
      match validate v with
      | Some a => inr a
      | None => inl [(k, "value is not valid")]
      end
  end.

Definition errors_of {A} (r : list (string * string) + A)
  : list (string * string) :=
  match r with inl es => es | inr _ => [] end.

(** [Document] constructed from the keyword arguments [data]; [uuid] and [now] are what the default factories
    of [id] and [created_at] produce. *)
Definition new_Document (uuid now : string) (data : pydict)
  : result Document :=
  let f_id := defaulted validate_str "id" uuid data in
  let f_content := required validate_str "content" data in
  let f_metadata := defaulted validate_dict "metadata" ∅ data in
  let f_created := defaulted validate_str "created_at" now data in
  match f_id, f_content, f_metadata, f_created with
  | inr i, inr c, inr m, inr t => inr (mkDocument i c m t)
  | _, _, _, _ =>
      inl (ValidationError "Document"
             (errors_of f_id ++ errors_of f_content
                ++ errors_of f_metadata ++ errors_of f_created))
  end.

(** [Context] constructed from the keyword arguments [data]; [now_c] and [now_u] are the two readings of
    [datetime.now()] taken for [created_at] and [updated_at]. *)
Definition new_Context (uuid now_c now_u : string) (data : pydict)
  : result Context :=
  let f_id := defaulted validate_str "id" uuid data in
  let f_name := required validate_str "name" data in
  let f_documents := defaulted validate_str_list "documents" [] data in
  let f_description := defaulted validate_opt_str "description" None data in
  let f_created := defaulted validate_str "created_at" now_c data in
  let f_updated := defaulted validate_str "updated_at" now_u data in
  match f_id, f_name, f_documents, f_description, f_created, f_updated with
  | inr i, inr n, inr ds, inr de, inr tc, inr tu =>
      inr (mkContext i n ds de tc tu)
  | _, _, _, _, _, _ =>
      inl (ValidationError "Context"
             (errors_of f_id ++ errors_of f_name ++ errors_of f_documents
                ++ errors_of f_description ++ errors_of f_created
                ++ errors_of f_updated))
  end.

(** The double-star unpacking of [task.get("data")]: anything but a mapping
    (including the [None] of an absent key) is a [TypeError].  The message
    is shortened: Python qualifies the class name and names the type of the
    value. *)
Definition unpack_kwargs (model : string) (v : option pyval)
  : result pydict :=
  match v with
  | Some (PDict d) => inr d
  | _ => inl (TypeError (model +:+ "() argument after ** must be a mapping"))
  end.
End Construction.

(** ** In-memory storage (app.py, lines 60-64) *)

Record State := mkState {
  documents_db : gmap string Document;
  contexts_db : gmap string Context;
  task_queue : TaskQueue;
  rate_limiter : RateLimiter
}.

Definition set_documents_db (db : gmap string Document) (st : State) : State :=
  mkState db (contexts_db st) (task_queue st) (rate_limiter st).
Definition set_contexts_db (db : gmap string Context) (st : State) : State :=
  mkState (documents_db st) db (task_queue st) (rate_limiter st).
Definition set_tasks (l : list pydict) (st : State) : State :=
  mkState (documents_db st) (contexts_db st)
    (mkTaskQueue l (failed_tasks (task_queue st))) (rate_limiter st).
Definition set_failed_tasks (l : list pydict) (st : State) : State :=
  mkState (documents_db st) (contexts_db st)
    (mkTaskQueue (tasks (task_queue st)) l) (rate_limiter st).
Definition set_rate_limiter (rl : RateLimiter) (st : State) : State :=
  mkState (documents_db st) (contexts_db st) (task_queue st) rl.

(** The state at start-up: empty stores, empty queue, [RateLimiter()]. *)
Definition initial_state : State :=
  mkState ∅ ∅ (mkTaskQueue [] []) (RateLimiter_init 60).

(** ** Task processor (app.py, lines 86-110) *)

(** What one turn of the loop reads from the environment. *)
Record Env := mkEnv {
  time_time : Q;          (* time.time() in is_rate_limited *)
  uuid4 : string;         (* str(uuid.uuid4()) of an id default *)
  datetime_now : string;  (* first datetime.now().isoformat() of a default *)
  datetime_now' : string  (* second one (updated_at of a Context) *)
}.

(** [list.pop(0)] *)
Definition pop0 {A} (l : list A) : result (A * list A) :=
  match l with
  | [] => inl (IndexError "pop from empty list")
  | x :: rest => inr (x, rest)
  end.

Section Processor.
Context {FV : FieldValidators}.

(** The body of the [try]: dispatch on [task.get("type")].  Nothing is
    written to the stores before the last point that can raise, so an
    exception leaves the state as it was. *)
Definition apply_task (e : Env) (task : pydict) (st : State) : result State :=
  match task !! "type" with
  | Some (PStr task_type) =>
      if decide (task_type = "create_document") then
        match unpack_kwargs "Document" (task !! "data") with
        | inl ex => inl ex
        | inr data =>
            match new_Document (uuid4 e) (datetime_now e) data with
            | inl ex => inl ex
            | inr document =>
                inr (set_documents_db
                       (<[doc_id document := document]> (documents_db st)) st)
            end
        end
      else if decide (task_type = "create_context") then
        match unpack_kwargs "Context" (task !! "data") with
        | inl ex => inl ex
        | inr data =>
            match new_Context (uuid4 e) (datetime_now e) (datetime_now' e)
                    data with
            | inl ex => inl ex
            | inr context =>
                inr (set_contexts_db
                       (<[ctx_id context := context]> (contexts_db st)) st)
            end
        end
      else inr st
  | _ => inr st
  end.

(** The [except Exception] handler: annotate the task, append it to the
    failed list. *)
Definition handle_failure (ex : exn) (task : pydict) (st : State) : State :=
  set_failed_tasks
    (failed_tasks (task_queue st) ++ [<["error" := PStr (exn_str ex)]> task])
    st.

(** One apply step (lines 94-109): pop the head, try, handle.  [inl] is an
    exception that leaves the step uncaught. *)
Definition apply_step (e : Env) (st : State) : result State :=
  match pop0 (tasks (task_queue st)) with
  | inl ex => inl ex
  | inr (task, rest) =>
      let st1 := set_tasks rest st in
      match apply_task e task st1 with
      | inr st2 => inr st2
      | inl ex => inr (handle_failure ex task st1)
      end
  end.

(** One turn of the [while True] loop (lines 88-110). *)
Definition loop_turn (e : Env) (st : State) : result State :=
  match tasks (task_queue st) with
  | [] => inr st
  | _ :: _ =>
      let '(limited, rl) := is_rate_limited (time_time e) (rate_limiter st) in
      if limited then inr (set_rate_limiter rl st)
      else apply_step e (set_rate_limiter rl st)
  end.

(** The loop run for as many turns as there are environment readings;
    an uncaught exception ends it. *)
Fixpoint process_task_queue (es : list Env) (st : State) : result State :=
  match es with
  | [] => inr st
  | e :: es' =>
      match loop_turn e st with
      | inl ex => inl ex
      | inr st' => process_task_queue es' st'
      end
  end.
End Processor.

(** ** Document and context endpoints *)

(** [l.remove(x)] where [x] is known to occur: drops the first occurrence. *)
Fixpoint remove_first (x : string) (l : list string) : list string :=
  match l with
  | [] => []
  | y :: l' => if decide (x = y) then l' else y :: remove_first x l'
  end.

(** [l.remove(x)]: [ValueError] when [x] does not occur. *)
Definition list_remove (x : string) (l : list string) : result (list string) :=
  if decide (x ∈ l) then inr (remove_first x l)
  else inl (ValueError "list.remove(x): x not in list").

Definition message (s : string) : pydict := {[ "message" := PStr s ]}.

(** The body of the loop of [delete_document] for one context; [now] is the
    reading of [datetime.now()] taken if the context is touched. *)
Definition detach_document (document_id now : string) (context : Context)
  : Context :=
  if decide (document_id ∈ ctx_documents context) then
    mkContext (ctx_id context) (ctx_name context)
      (remove_first document_id (ctx_documents context))
      (ctx_description context) (ctx_created_at context) now
  else context.

(** [delete_document] (lines 129-141).  [now_at cid] is the reading of
    [datetime.now()] taken while the loop visits the context stored under
    [cid]. *)
Definition delete_document (now_at : string -> string) (document_id : string)
    (st : State) : result pydict * State :=
  match documents_db st !! document_id with
  | None => (inl (HTTPException 404 "Document not found"), st)
  | Some _ =>
      let contexts :=
        map_imap (fun cid context =>
                    Some (detach_document document_id (now_at cid) context))
          (contexts_db st) in
      (inr (message "Document deleted successfully"),
       set_documents_db (delete document_id (documents_db st))
         (set_contexts_db contexts st))
  end.

(** The entry appended to the failed list for an unresolved [doc_id]. *)
Definition validation_failure (context_id doc_id : string) : pydict :=
  {[ "type" := PStr "update_context";
     "context_id" := PStr context_id;
     "error" := PStr ("Document " +:+ doc_id +:+ " does not exist") ]}.

(** The validation loop of [update_context] (lines 161-169):
    [for doc_id in documents] reads the list through an index [i] that
    advances by one each turn and stops once [i] reaches the current length,
    while the body removes from that same list.  [fuel] bounds the number of
    turns; [None] means the bound was hit before the loop ended. *)
Fixpoint validate_documents (db : gmap string Document) (context_id : string)
    (fuel i : nat) (documents : list string) (failed : list pydict)
  : option (result (list string) * list pydict) :=
  match documents !! i with
  | None => Some (inr documents, failed)
  | Some doc_id =>
      match fuel with
      | 0 => None
      | S fuel' =>
          match db !! doc_id with
          | Some _ =>
              validate_documents db context_id fuel' (S i) documents failed
          | None =>
              let failed' := failed ++ [validation_failure context_id doc_id] in
              match list_remove doc_id documents with
              | inl ex => Some (inl ex, failed')
              | inr documents' =>
                  validate_documents db context_id fuel' (S i) documents' failed'
              end
          end
      end
  end.

(** [update_context] (lines 155-173); [now] is the reading of
    [datetime.now()].  The loop gets as many turns as the submitted list has
    elements. *)
Definition update_context (now : string) (context_id : string)
    (updated_context : Context) (st : State)
  : option (result Context * State) :=
  match contexts_db st !! context_id with
  | None => Some (inl (HTTPException 404 "Context not found"), st)
  | Some _ =>
      match validate_documents (documents_db st) context_id
              (length (ctx_documents updated_context)) 0
              (ctx_documents updated_context)
              (failed_tasks (task_queue st)) with
      | None => None
      | Some (inl ex, failed) => Some (inl ex, set_failed_tasks failed st)
      | Some (inr documents, failed) =>
          let committed :=
            mkContext (ctx_id updated_context) (ctx_name updated_context)
              documents (ctx_description updated_context)
              (ctx_created_at updated_context) now in
          Some (inr committed,
                set_contexts_db (<[context_id := committed]> (contexts_db st))
                  (set_failed_tasks failed st))
      end
  end.

(** [delete_context] (lines 175-181) *)
Definition delete_context (context_id : string) (st : State)
  : result pydict * State :=
  match contexts_db st !! context_id with
  | None => (inl (HTTPException 404 "Context not found"), st)
  | Some _ =>
      (inr (message "Context deleted successfully"),
       set_contexts_db (delete context_id (contexts_db st)) st)
  end.

(** One element of the [content] list of [get_context_content]. *)
Definition render_document (doc_id : string) (document : Document) : pyval :=
  PDict {[ "id" := PStr doc_id;
           "content" := PStr (doc_content document);
           "metadata" := PDict (doc_metadata document) ]}.

(** The loop of [get_context_content] (lines 191-197). *)
Fixpoint render_documents (db : gmap string Document) (documents : list string)
  : list pyval :=
  match documents with
  | [] => []
  | doc_id :: rest =>
      match db !! doc_id with
      | Some document =>
          render_document doc_id document :: render_documents db rest
      | None => render_documents db rest
      end
  end.

(** [get_context_content] (lines 183-199) *)
Definition get_context_content (context_id : string) (st : State)
  : result pydict * State :=
  match contexts_db st !! context_id with
  | None => (inl (HTTPException 404 "Context not found"), st)
  | Some context =>
      (inr {[ "context_id" := PStr context_id;
              "name" := PStr (ctx_name context);
              "documents" :=
                PList (render_documents (documents_db st)
                         (ctx_documents context)) ]},
       st)
  end.

(** ** Task endpoints *)

(** [retry_failed_tasks] (lines 205-214) *)
Definition retry_failed_tasks (st : State) : pydict * State :=
  match failed_tasks (task_queue st) with
  | [] => (message "No failed tasks to retry", st)
  | _ :: _ =>
      let pending := tasks (task_queue st) ++ failed_tasks (task_queue st) in
      (message
         ("Moved " +:+ pretty (length pending) +:+ " tasks back to the queue"),
       set_failed_tasks [] (set_tasks pending st))
  end.

(** ** Runs of the rate limiter and the properties stated of them *)

(** Successive calls of [is_rate_limited], one per clock reading; the
    answers are returned in call order. *)
Fixpoint calls (ts : list Q) (rl : RateLimiter) : list bool * RateLimiter :=
  match ts with
  | [] => ([], rl)
  | t :: ts' =>
      let '(limited, rl1) := is_rate_limited t rl in
      let '(answers, rl2) := calls ts' rl1 in
      (limited :: answers, rl2)
  end.

(** Every call of [ts] comes less than 60 seconds after each call before
    it: the whole sequence fits in one window. *)
Fixpoint within_window (ts : list Q) : bool :=
  match ts with
  | [] => true
  | t :: ts' => forallb (fun u => in_window u t) ts' && within_window ts'
  end.

(** At [now], every recorded instant is at least 60 seconds old. *)
Definition window_elapsed (now : Q) (rl : RateLimiter) : bool :=
  forallb (fun t => negb (in_window now t)) (request_times rl).

(** The invariant of the window after a call made at [now]. *)
Definition window_inv (now : Q) (rl : RateLimiter) : Prop :=
  (Z.of_nat (length (request_times rl)) <= requests_per_minute rl)%Z
  /\ Forall (fun t => (now - 60 < t)%Q /\ (t <= now)%Q) (request_times rl)
  /\ StronglySorted Qle (request_times rl).

(** What a call made at [now] may assume of the window it finds. *)
Definition window_pre (now : Q) (rl : RateLimiter) : Prop :=
  (Z.of_nat (length (request_times rl)) <= requests_per_minute rl)%Z
  /\ Forall (fun t => (t <= now)%Q) (request_times rl)
  /\ StronglySorted Qle (request_times rl).

(** ** Sample states and requests *)

Definition sample_document : Document :=
  mkDocument "d" "text" ∅ "2024-01-01T00:00:00".

(** A context that lists document [d] twice. *)
Definition sample_context_twice : Context :=
  mkContext "c" "notes" ["d"; "d"] None
    "2024-01-01T00:00:01" "2024-01-01T00:00:01".

Definition sample_context : Context :=
  mkContext "c" "notes" ["d"] None
    "2024-01-01T00:00:01" "2024-01-01T00:00:01".

Definition sample_state_twice : State :=
  mkState {[ "d" := sample_document ]} {[ "c" := sample_context_twice ]}
    (mkTaskQueue [] []) (RateLimiter_init 60).

Definition sample_state : State :=
  mkState {[ "d" := sample_document ]} {[ "c" := sample_context ]}
    (mkTaskQueue [] []) (RateLimiter_init 60).

(** A request body for [PUT /contexts/c] whose documents [x] and [y] are
    both unknown to the store. *)
Definition sample_update_unknown : Context :=
  mkContext "c" "notes" ["x"; "y"] None
    "2024-01-01T00:00:01" "2024-01-01T00:00:01".

(** A request body for [PUT /contexts/c] that carries another id. *)
Definition sample_update_other_id : Context :=
  mkContext "other" "renamed" ["d"] None
    "2024-01-01T00:00:01" "2024-01-01T00:00:01".

(** ** Reading back a rendered content list *)

(** The document id carried by one element of the rendered list. *)
Definition rendered_id (v : pyval) : option string :=
  match v with
  | PDict d => match d !! "id" with Some (PStr s) => Some s | _ => None end
  | _ => None
  end.

(** [doc_id in documents_db], as a boolean. *)
Definition resolves (db : gmap string Document) (doc_id : string) : bool :=
  bool_decide (is_Some (db !! doc_id)).

(** ** Sample intents *)

(** [task.get("type")] names neither of the two kinds the processor applies. *)
Definition unrecognized (task : pydict) : Prop :=
  task !! "type" ≠ Some (PStr "create_document")
  /\ task !! "type" ≠ Some (PStr "create_context").

(** A queued entry of a kind the processor does not know: the record that
    [update_context] files for an unresolved document. *)
Definition sample_unknown_task : pydict := validation_failure "c" "x".

(** A [create_document] intent whose payload lacks [content]. *)
Definition sample_bad_task : pydict :=
  {[ "type" := PStr "create_document";
     "data" := PDict {[ "id" := PStr "d2" ]} ]}.

(** A well-formed [create_document] intent. *)
Definition sample_good_task : pydict :=
  {[ "type" := PStr "create_document";
     "data" := PDict {[ "id" := PStr "d3"; "content" := PStr "hello" ]} ]}.

Definition sample_env : Env :=
  mkEnv 0 "00000000-0000-4000-8000-000000000000"
    "2024-01-03T00:00:00" "2024-01-03T00:00:00".

(** ** Authentication helper (app.py, lines 79-83) *)

(** [verify_api_key]; [MCP_API_KEY] is the value of the environment
    variable, if set, and [api_key] the [X-API-Key] header, if sent. *)
Definition verify_api_key (MCP_API_KEY api_key : option string)
  : result string :=
  let expected_api_key := default "test-api-key" MCP_API_KEY in
  match api_key with
  | Some key =>
      if decide (key = expected_api_key) then inr key
      else inl (HTTPException 401 "Invalid API key")
  | None => inl (HTTPException 401 "Invalid API key")
  end.

(** ** Creation and read endpoints *)

(** [document.dict()] *)
Definition Document_dict (document : Document) : pydict :=
  {[ "id" := PStr (doc_id document);
     "content" := PStr (doc_content document);
     "metadata" := PDict (doc_metadata document);
     "created_at" := PStr (doc_created_at document) ]}.

(** [context.dict()] *)
Definition Context_dict (context : Context) : pydict :=
  {[ "id" := PStr (ctx_id context);
     "name" := PStr (ctx_name context);
     "documents" := PList (PStr <$> ctx_documents context);
     "description" :=
       match ctx_description context with
       | Some s => PStr s
       | None => PNone
       end;
     "created_at" := PStr (ctx_created_at context);
     "updated_at" := PStr (ctx_updated_at context) ]}.

Definition create_document_task (document : Document) : pydict :=
  {[ "type" := PStr "create_document";
     "data" := PDict (Document_dict document) ]}.

Definition create_context_task (context : Context) : pydict :=
  {[ "type" := PStr "create_context";
     "data" := PDict (Context_dict context) ]}.

(** [create_document] (lines 117-121) *)
Definition create_document (document : Document) (st : State)
  : Document * State :=
  (document,
   set_tasks (tasks (task_queue st) ++ [create_document_task document]) st).

(** [get_document] (lines 123-127) *)
Definition get_document (document_id : string) (st : State)
  : result Document * State :=
  match documents_db st !! document_id with
  | None => (inl (HTTPException 404 "Document not found"), st)
  | Some document => (inr document, st)
  end.

(** [create_context] (lines 144-147) *)
Definition create_context (context : Context) (st : State)
  : Context * State :=
  (context,
   set_tasks (tasks (task_queue st) ++ [create_context_task context]) st).

(** [get_context] (lines 149-153) *)
Definition get_context (context_id : string) (st : State)
  : result Context * State :=
  match contexts_db st !! context_id with
  | None => (inl (HTTPException 404 "Context not found"), st)
  | Some context => (inr context, st)
  end.

(** [get_failed_tasks] (lines 201-203) *)
Definition get_failed_tasks (st : State) : pydict * State :=
  ({[ "failed_tasks" := PList (PDict <$> failed_tasks (task_queue st)) ]}, st).

(** [health_check] (lines 216-223); [now] is the reading of
    [datetime.now()]. *)
Definition health_check (now : string) (st : State) : pydict * State :=
  ({[ "status" := PStr "healthy";
      "timestamp" := PStr now;
      "queue_size" := PInt (Z.of_nat (length (tasks (task_queue st))));
      "failed_tasks" :=
        PInt (Z.of_nat (length (failed_tasks (task_queue st)))) ]},
   st).

(** ** Properties stated of the store and the validators *)

(** The field validators accept a value of the annotated type as it is. *)
Class LawfulValidators (FV : FieldValidators) : Prop := {
  validate_str_PStr : forall s, validate_str (PStr s) = Some s;
  validate_dict_PDict : forall d, validate_dict (PDict d) = Some d
}.

(** Every document is stored under its own id. *)
Definition documents_keyed (st : State) : Prop :=
  forall k document, documents_db st !! k = Some document -> doc_id document = k.

(** No two neighbours of the list are both unknown to [db]. *)
Fixpoint no_unresolved_neighbours (db : gmap string Document)
    (documents : list string) : bool :=
  match documents with
  | x :: (y :: _) as rest =>
      (resolves db x || resolves db y) && no_unresolved_neighbours db rest
  | _ => true
  end.

Definition sample_context_two : Context :=
  mkContext "c2" "mixed" ["d"; "gone"; "d"] (Some "two references")
    "2024-01-01T00:00:02" "2024-01-01T00:00:02".

(** A document not yet in [sample_state]. *)
Definition sample_new_document : Document :=
  mkDocument "d9" "fresh" {[ "lang" := PStr "en" ]} "2024-01-04T00:00:00".

(** Two pending intents and a limiter with room for one admission. *)
Definition sample_state_tight : State :=
  mkState ∅ ∅
    (mkTaskQueue [create_document_task sample_new_document;
                  create_document_task sample_document] [])
    (RateLimiter_init 1).

Definition sample_env_later : Env :=
  mkEnv 1 "00000000-0000-4000-8000-000000000001"
    "2024-01-03T00:00:01" "2024-01-03T00:00:01".

(** ** The server as a transition system

    The endpoint bodies contain no [await], and the loop yields only in its
    [sleep] calls, so the server moves by whole endpoint calls and whole
    turns of the loop.  Reads are left out: they do not change the state. *)

Section Steps.
Context {FV : FieldValidators}.

Inductive server_step : State -> State -> Prop :=
  | step_loop_turn e st st' :
      loop_turn e st = inr st' -> server_step st st'
  | step_create_document document st :
      server_step st (snd (create_document document st))
  | step_create_context context st :
      server_step st (snd (create_context context st))
  | step_delete_document now_at document_id st :
      server_step st (snd (delete_document now_at document_id st))
  | step_update_context now context_id updated_context st r st' :
      update_context now context_id updated_context st = Some (r, st') ->
      server_step st st'
  | step_delete_context context_id st :
      server_step st (snd (delete_context context_id st))
  | step_retry_failed_tasks st :
      server_step st (snd (retry_failed_tasks st)).

(** The states the server can be in. *)
Definition reachable (st : State) : Prop := rtc server_step initial_state st.
End Steps.

(** Every entry of the failed list carries a non-empty [error] string. *)
Definition failed_annotated (st : State) : Prop :=
  Forall (fun task : pydict =>
            exists s, task !! "error" = Some (PStr s) /\ s ≠ EmptyString)
    (failed_tasks (task_queue st)).

(** An entry filed by [update_context]. *)
Definition validation_entry (task : pydict) : Prop :=
  exists context_id doc_id, task = validation_failure context_id doc_id.

(** An intent queued by one of the two creation endpoints. *)
Definition creation_intent (task : pydict) : Prop :=
  (exists document, task = create_document_task document)
  \/ (exists context, task = create_context_task context).

(** Pending entries are creation intents or re-queued validation entries;
    failed entries are validation entries. *)
Definition queue_shape (st : State) : Prop :=
  Forall (fun task => creation_intent task \/ validation_entry task)
    (tasks (task_queue st))
  /\ Forall validation_entry (failed_tasks (task_queue st)).

(** * Rate limiter proofs *)

Section RateLimiterFacts.
Implicit Types (rl : RateLimiter) (now t : Q) (ts : list Q).

Lemma in_window_spec now t : in_window now t = true <-> (now - t < 60)%Q.
Proof.
  unfold in_window. rewrite negb_true_iff.
  split.
  - intros Hb. apply Qnot_le_lt. intros Hle.
    apply Qle_bool_iff in Hle. congruence.
  - intros Hlt. destruct (Qle_bool 60 (now - t)) eqn:Hb; [|done].
    apply Qle_bool_iff in Hb. exfalso. apply (Qlt_not_le _ _ Hlt Hb).
Qed.

Lemma in_window_false now t : in_window now t = false <-> (60 <= now - t)%Q.
Proof.
  unfold in_window. rewrite negb_false_iff. apply Qle_bool_iff.
Qed.

Lemma filter_keep_all {A} (p : A -> bool) (l : list A) :
  forallb p l = true -> List.filter p l = l.
Proof.
  induction l as [|x l IH]; simpl; [done|].
  intros [Hx Hl]%andb_true_iff. rewrite Hx. f_equal. auto.
Qed.

Lemma filter_drop_all {A} (p : A -> bool) (l : list A) :
  forallb (fun x => negb (p x)) l = true -> List.filter p l = [].
Proof.
  induction l as [|x l IH]; simpl; [done|].
  intros [Hx Hl]%andb_true_iff. apply negb_true_iff in Hx.
  rewrite Hx. auto.
Qed.

Lemma filter_length_le {A} (p : A -> bool) (l : list A) :
  (length (List.filter p l) <= length l)%nat.
Proof. induction l as [|x l IH]; simpl; [lia|]. destruct (p x); simpl; lia. Qed.

Lemma is_rate_limited_rpm now rl :
  requests_per_minute (snd (is_rate_limited now rl)) = requests_per_minute rl.
Proof. unfold is_rate_limited. by case_match. Qed.

(** Shape of the window after one call. *)
Lemma is_rate_limited_times now rl :
  request_times (snd (is_rate_limited now rl)) =
    List.filter (in_window now) (request_times rl)
      ++ (if fst (is_rate_limited now rl) then [] else [now]).
Proof.
  unfold is_rate_limited. case_match; simpl; [|done].
  by rewrite app_nil_r.
Qed.

Lemma is_rate_limited_answer now rl :
  fst (is_rate_limited now rl) =
    (requests_per_minute rl
       <=? Z.of_nat (length (List.filter (in_window now) (request_times rl))))%Z.
Proof. unfold is_rate_limited. by case_match. Qed.
End RateLimiterFacts.

Section RateLimiterRuns.
Implicit Types (rl : RateLimiter) (now t : Q) (ts : list Q).

Lemma calls_app ts1 ts2 rl :
  calls (ts1 ++ ts2) rl =
    (fst (calls ts1 rl) ++ fst (calls ts2 (snd (calls ts1 rl))),
     snd (calls ts2 (snd (calls ts1 rl)))).
Proof.
  revert rl. induction ts1 as [|t ts1 IH]; intros rl; simpl.
  - by destruct (calls ts2 rl).
  - destruct (is_rate_limited t rl) as [b rl1]. rewrite IH.
    by destruct (calls ts1 rl1).
Qed.

Lemma calls_snoc ts t rl :
  snd (calls (ts ++ [t]) rl) = snd (is_rate_limited t (snd (calls ts rl))).
Proof.
  rewrite calls_app. cbn [snd calls].
  by destruct (is_rate_limited t _).
Qed.

Lemma calls_rpm ts rl :
  requests_per_minute (snd (calls ts rl)) = requests_per_minute rl.
Proof.
  revert rl. induction ts as [|t ts IH]; intros rl; simpl; [done|].
  pose proof (is_rate_limited_rpm t rl) as Hr.
  destruct (is_rate_limited t rl) as [b rl1]. specialize (IH rl1).
  destruct (calls ts rl1). simpl in *. congruence.
Qed.

(** With room for all of them, the calls are admitted whenever made. *)
Lemma calls_admitted ts rl :
  (Z.of_nat (length (request_times rl) + length ts)
     <= requests_per_minute rl)%Z ->
  fst (calls ts rl) = replicate (length ts) false.
Proof.
  revert rl. induction ts as [|t ts IH]; intros rl Hroom; simpl; [done|].
  pose proof (is_rate_limited_answer t rl) as Ha.
  pose proof (is_rate_limited_times t rl) as Ht.
  pose proof (is_rate_limited_rpm t rl) as Hr.
  pose proof (filter_length_le (in_window t) (request_times rl)) as Hf.
  simpl in Hroom.
  destruct (is_rate_limited t rl) as [b rl1]. simpl in *.
  assert (b = false) as -> by (subst b; apply Z.leb_gt; lia).
  specialize (IH rl1). destruct (calls ts rl1) as [bs rl2]. simpl in *.
  f_equal. apply IH. rewrite Ht, Hr, length_app. simpl. lia.
Qed.

Lemma within_window_snoc ts t :
  within_window (ts ++ [t]) = true <->
  within_window ts = true /\ forallb (in_window t) ts = true.
Proof.
  induction ts as [|u ts IH]; simpl.
  - tauto.
  - rewrite forallb_app. simpl. rewrite !andb_true_iff, IH. tauto.
Qed.

(** Calls that fit in one window with what is already recorded, and for
    which there is room, are all recorded and nothing is purged. *)
Lemma calls_recorded ts rl :
  (Z.of_nat (length (request_times rl) + length ts)
     <= requests_per_minute rl)%Z ->
  within_window (request_times rl ++ ts) = true ->
  snd (calls ts rl) =
    mkRateLimiter (requests_per_minute rl) (request_times rl ++ ts).
Proof.
  revert rl. induction ts as [|t ts IH]; intros rl Hroom Hw; simpl.
  - rewrite app_nil_r. by destruct rl.
  - pose proof (is_rate_limited_answer t rl) as Ha.
    pose proof (is_rate_limited_times t rl) as Ht.
    pose proof (is_rate_limited_rpm t rl) as Hr.
    assert (List.filter (in_window t) (request_times rl) = request_times rl)
      as Hkeep.
    { apply filter_keep_all.
      change (t :: ts) with ([t] ++ ts) in Hw. rewrite app_assoc in Hw.
      assert (within_window (request_times rl ++ [t]) = true) as Hw1.
      { clear -Hw. induction ts as [|u ts IH] using rev_ind.
        - by rewrite app_nil_r in Hw.
        - rewrite app_assoc in Hw. apply within_window_snoc in Hw. tauto. }
      apply within_window_snoc in Hw1. tauto. }
    simpl in Hroom.
    destruct (is_rate_limited t rl) as [b rl1]. simpl in *.
    rewrite Hkeep in Ha, Ht.
    assert (b = false) as -> by (subst b; apply Z.leb_gt; lia).
    specialize (IH rl1). destruct (calls ts rl1) as [bs rl2]. simpl in *.
    rewrite IH, Hr, Ht.
    + by rewrite <- app_assoc.
    + rewrite Ht, Hr, length_app. simpl. lia.
    + rewrite Ht, <- app_assoc. done.
Qed.

(** A full window whose instants are all still inside rejects the call and
    stays as it is. *)
Lemma full_window_rejects t rl :
  Z.of_nat (length (request_times rl)) = requests_per_minute rl ->
  forallb (in_window t) (request_times rl) = true ->
  is_rate_limited t rl = (true, rl).
Proof.
  intros Hfull Hin. unfold is_rate_limited.
  rewrite (filter_keep_all _ _ Hin).
  destruct (Z.leb_spec (requests_per_minute rl)
              (Z.of_nat (length (request_times rl)))); [|lia].
  by destruct rl.
Qed.

(** Once every recorded instant has left the window the limiter answers as
    a new one. *)
Lemma elapsed_window_resets now rl :
  window_elapsed now rl = true ->
  is_rate_limited now rl =
    is_rate_limited now (RateLimiter_init (requests_per_minute rl)).
Proof.
  intros Hel. unfold is_rate_limited.
  rewrite (filter_drop_all _ _ Hel). done.
Qed.
End RateLimiterRuns.

Section WindowInvariant.
Implicit Types (rl : RateLimiter) (now t : Q) (ts : list Q).

Lemma window_pre_init rpm now :
  (0 <= rpm)%Z -> window_pre now (RateLimiter_init rpm).
Proof.
  intros Hrpm. repeat split; simpl; [lia|constructor|constructor].
Qed.

Lemma window_inv_later now now' rl :
  window_inv now rl -> (now <= now')%Q -> window_pre now' rl.
Proof.
  intros (Hlen & Hall & Hsorted) Hle. repeat split; [done| |done].
  apply List.Forall_forall. intros t Ht.
  rewrite List.Forall_forall in Hall. destruct (Hall t Ht). lra.
Qed.

Lemma StronglySorted_filter {A} (R : relation A) (p : A -> bool) l :
  StronglySorted R l -> StronglySorted R (List.filter p l).
Proof.
  induction 1 as [|x l Hl IH Hx]; simpl; [constructor|].
  destruct (p x); [|done]. constructor; [done|].
  apply List.Forall_forall. intros y [Hy _]%List.filter_In.
  rewrite List.Forall_forall in Hx. auto.
Qed.

(** One call, admitted or not, establishes the invariant. *)
Lemma window_inv_step now rl :
  window_pre now rl -> window_inv now (snd (is_rate_limited now rl)).
Proof.
  intros (Hlen & Hall & Hsorted).
  assert (Forall (fun t => (now - 60 < t)%Q /\ (t <= now)%Q)
            (List.filter (in_window now) (request_times rl))) as Hkept.
  { apply List.Forall_forall. intros t [Ht Hin]%List.filter_In.
    apply in_window_spec in Hin. rewrite List.Forall_forall in Hall.
    specialize (Hall _ Ht). cbv beta in Hall. split; lra. }
  pose proof (StronglySorted_filter Qle (in_window now) _ Hsorted) as Hks.
  unfold is_rate_limited.
  destruct (Z.leb_spec (requests_per_minute rl)
              (Z.of_nat (length (List.filter (in_window now)
                                   (request_times rl))))) as [Hfull|Hroom];
    unfold window_inv; cbn [snd request_times requests_per_minute].
  - repeat split; [|done|done].
    pose proof (filter_length_le (in_window now) (request_times rl)). lia.
  - repeat split.
    + rewrite length_app. cbn [length]. lia.
    + apply Forall_app. split; [done|].
      constructor; [|constructor]. split; lra.
    + apply StronglySorted_app.
      split; [|split; [done|repeat constructor]].
      intros x y Hx Hy. apply list_elem_of_In in Hx.
      rewrite List.Forall_forall in Hkept. specialize (Hkept _ Hx).
      apply list_elem_of_singleton in Hy. subst y. tauto.
Qed.
End WindowInvariant.

(** ** The claims about the rate limiter *)

(** C5.  One call at [now] keeps exactly the recorded instants younger than
    60 seconds (so every instant that is older is purged) and records [now]
    iff it admits.  Calls for which the capacity leaves room are all
    admitted, and when they fit in one window each is recorded and none is
    purged.  With the capacity reached by calls of one window, a further
    call in that window is rejected and the window is left as it was.  A
    call made when every recorded instant has left the window is answered
    as by a new limiter, and is admitted when the capacity is positive. *)
Theorem rate_limiter_admission :
  (forall now rl,
     request_times (snd (is_rate_limited now rl)) =
       List.filter (in_window now) (request_times rl)
         ++ (if fst (is_rate_limited now rl) then [] else [now])
     /\ (forall t, in_window now t = true <-> (now - t < 60)%Q)
     /\ Forall (fun t => (now - t < 60)%Q)
          (request_times (snd (is_rate_limited now rl))))
  /\ (forall rpm ts,
        (Z.of_nat (length ts) <= rpm)%Z ->
        fst (calls ts (RateLimiter_init rpm)) = replicate (length ts) false
        /\ (within_window ts = true ->
            snd (calls ts (RateLimiter_init rpm)) = mkRateLimiter rpm ts))
  /\ (forall rpm ts t,
        Z.of_nat (length ts) = rpm ->
        within_window (ts ++ [t]) = true ->
        is_rate_limited t (snd (calls ts (RateLimiter_init rpm))) =
          (true, mkRateLimiter rpm ts))
  /\ (forall now rl,
        window_elapsed now rl = true ->
        is_rate_limited now rl =
          is_rate_limited now (RateLimiter_init (requests_per_minute rl))
        /\ ((0 < requests_per_minute rl)%Z ->
            is_rate_limited now rl =
              (false, mkRateLimiter (requests_per_minute rl) [now]))).
Proof.
  split; [|split; [|split]].
  - intros now rl. split; [apply is_rate_limited_times|].
    split; [intros t; apply in_window_spec|].
    rewrite is_rate_limited_times. apply Forall_app. split.
    + apply List.Forall_forall. intros t [_ Ht]%List.filter_In.
      by apply in_window_spec.
    + destruct (fst (is_rate_limited now rl)); repeat constructor. lra.
  - intros rpm ts Hroom. split.
    + apply calls_admitted. simpl. lia.
    + intros Hw. rewrite calls_recorded; simpl; [done|lia|done].
  - intros rpm ts t Hfull Hw. apply within_window_snoc in Hw as [Hw Hin].
    rewrite calls_recorded; simpl; [|lia|done].
    apply full_window_rejects; done.
  - intros now rl Hel. split; [by apply elapsed_window_resets|].
    intros Hpos. rewrite elapsed_window_resets by done.
    unfold is_rate_limited. simpl.
    destruct (Z.leb_spec (requests_per_minute rl) (Z.of_nat 0)); [lia|done].
Qed.

(** A limiter of capacity 2: two calls one second apart are admitted, the
    call a second later is rejected and records nothing, and the call made
    at second 100 is admitted again. *)
Lemma rate_limiter_admission_witness :
  fst (calls [0; 1]%Q (RateLimiter_init 2)) = [false; false]
  /\ is_rate_limited 2 (snd (calls [0; 1]%Q (RateLimiter_init 2))) =
       (true, mkRateLimiter 2 [0; 1]%Q)
  /\ is_rate_limited 100 (mkRateLimiter 2 [0; 1]%Q) =
       (false, mkRateLimiter 2 [100]%Q).
Proof.
  destruct rate_limiter_admission as (_ & Hadmit & Hreject & Hreset).
  split; [|split].
  - apply (Hadmit 2%Z [0; 1]%Q). simpl. lia.
  - apply (Hreject 2%Z [0; 1]%Q 2%Q); reflexivity.
  - apply (Hreset 100%Q (mkRateLimiter 2 [0; 1]%Q)); [reflexivity|simpl; lia].
Defined.

(** C8, as the code has it.  Started empty with a capacity that is not
    negative, and called at clock readings that never go back, the limiter has after every call
    (admitted or rejected) at most [requests_per_minute] instants recorded,
    all of them within the 60 seconds that end at the call, in
    non-decreasing order. *)
Theorem window_invariant (rpm : Z) (ts : list Q) (t : Q) :
  (0 <= rpm)%Z ->
  Sorted Qle (ts ++ [t]) ->
  window_inv t (snd (calls (ts ++ [t]) (RateLimiter_init rpm))).
Proof.
  intros Hrpm Hsorted.
  apply (@Sorted_StronglySorted Q Qle Qle_trans) in Hsorted.
  revert t Hsorted. induction ts as [|u ts IH] using rev_ind; intros t Hsorted.
  - rewrite calls_snoc. apply window_inv_step. by apply window_pre_init.
  - rewrite calls_snoc.
    apply StronglySorted_app in Hsorted as (Hlast & Hprefix & _).
    specialize (IH u Hprefix).
    assert (u <= t)%Q as Hut.
    { apply Hlast; [|apply list_elem_of_singleton; done].
      apply elem_of_app. right. by apply list_elem_of_singleton. }
    apply window_inv_step. by apply (window_inv_later u).
Qed.

(** Capacity 2, calls at seconds 0, 1, 2 and 61. *)
Lemma window_invariant_witness :
  window_inv 61 (snd (calls ([0; 1; 2] ++ [61])%Q (RateLimiter_init 2))).
Proof.
  apply (window_invariant 2 [0; 1; 2]%Q 61%Q); [lia|].
  repeat constructor; by vm_compute.
Defined.

(** C8, as stated for every call, fails without those two conditions.  A
    clock that steps back from 10 to 5 leaves the window [10; 5]: out of
    order, and with an instant later than the call.  A limiter of capacity
    -1 holds no instant after its first call, which is still more than its
    capacity. *)
Lemma window_invariant_needs_conditions :
  ~ window_inv 5 (snd (calls [10; 5]%Q (RateLimiter_init 2)))
  /\ request_times (snd (calls [10; 5]%Q (RateLimiter_init 2))) = [10; 5]%Q
  /\ ~ window_inv 0 (snd (calls [0]%Q (RateLimiter_init (-1)))).
Proof.
  assert (request_times (snd (calls [10; 5]%Q (RateLimiter_init 2)))
            = [10; 5]%Q) as Hwindow by reflexivity.
  split; [|split; [exact Hwindow|]].
  - intros (_ & Hall & _). rewrite Hwindow in Hall.
    apply Forall_cons in Hall as [[_ Hle] _]. lra.
  - intros (Hlen & _). vm_compute in Hlen. by apply Hlen.
Qed.

(** * Store proofs *)

Section ListRemove.
Implicit Types (x y : string) (l : list string).

Lemma remove_first_length x l :
  x ∈ l -> S (length (remove_first x l)) = length l.
Proof.
  induction l as [|y l IH]; simpl.
  - intros H. by apply not_elem_of_nil in H.
  - intros H. destruct (decide (x = y)) as [->|Hne]; [done|].
    apply elem_of_cons in H as [?|H]; [done|].
    simpl. by rewrite IH.
Qed.

Lemma remove_first_absent x l : x ∉ l -> remove_first x l = l.
Proof.
  induction l as [|y l IH]; simpl; [done|].
  intros [Hne Hl]%not_elem_of_cons.
  destruct (decide (x = y)); [done|]. by rewrite IH.
Qed.

(** [list.remove] does not raise on an element read from the list. *)
Lemma list_remove_lookup l i x :
  l !! i = Some x -> list_remove x l = inr (remove_first x l).
Proof.
  intros Hi. unfold list_remove.
  destruct (decide (x ∈ l)) as [|Hn]; [done|].
  exfalso. apply Hn. by eapply list_elem_of_lookup_2.
Qed.
End ListRemove.

Section UpdateContext.
Implicit Types (db : gmap string Document) (st : State).

(** The loop of [update_context] ends without raising as soon as it is
    given one turn per element still ahead of the index. *)
Lemma validate_documents_total db context_id fuel i documents failed :
  length documents <= i + fuel ->
  exists documents' failed',
    validate_documents db context_id fuel i documents failed
      = Some (inr documents', failed').
Proof.
  revert i documents failed.
  induction fuel as [|fuel IH]; intros i documents failed Hfuel; simpl.
  - destruct (documents !! i) as [doc_id|] eqn:Hi; [|by eauto].
    apply lookup_lt_Some in Hi. lia.
  - destruct (documents !! i) as [doc_id|] eqn:Hi; [|by eauto].
    destruct (db !! doc_id).
    + apply IH. lia.
    + rewrite (list_remove_lookup _ _ _ Hi). apply IH.
      pose proof (remove_first_length doc_id documents
                    (list_elem_of_lookup_2 _ _ _ Hi)).
      lia.
Qed.

(** On a stored context the update returns: it neither runs out of turns
    nor raises, and it commits. *)
Lemma update_context_commits now context_id updated_context st :
  is_Some (contexts_db st !! context_id) ->
  exists documents failed,
    let committed :=
      mkContext (ctx_id updated_context) (ctx_name updated_context)
        documents (ctx_description updated_context)
        (ctx_created_at updated_context) now in
    update_context now context_id updated_context st =
      Some (inr committed,
            set_contexts_db (<[context_id := committed]> (contexts_db st))
              (set_failed_tasks failed st)).
Proof.
  intros [old Hold]. unfold update_context. rewrite Hold.
  destruct (validate_documents_total (documents_db st) context_id
              (length (ctx_documents updated_context)) 0
              (ctx_documents updated_context)
              (failed_tasks (task_queue st))) as (documents & failed & ->);
    [lia|].
  by exists documents, failed.
Qed.
End UpdateContext.

(** ** The claims about the store *)

(** C1.  Deleting document [d] from a store whose context [c] lists [d]
    twice: the document is gone, [updated_at] of [c] is refreshed, and [c]
    still lists [d] once, since [list.remove] drops one occurrence only. *)
Theorem delete_document_keeps_second_occurrence :
  exists st',
    delete_document (fun _ => "2024-01-02T00:00:00") "d" sample_state_twice
      = (inr (message "Document deleted successfully"), st')
    /\ documents_db st' !! "d" = None
    /\ contexts_db st' !! "c" =
         Some (mkContext "c" "notes" ["d"] None
                 "2024-01-01T00:00:01" "2024-01-02T00:00:00").
Proof. eexists. split; [reflexivity|]. split; by vm_compute. Qed.

(** C2.  Updating context [c] with the documents [x; y], neither of which
    is stored: the turn that removes [x] moves [y] under an index the loop
    has passed, so [y] is committed and only [x] is reported. *)
Theorem update_context_commits_unresolved_neighbour :
  exists committed st',
    update_context "2024-01-02T00:00:00" "c" sample_update_unknown sample_state
      = Some (inr committed, st')
    /\ ctx_documents committed = ["y"]
    /\ documents_db st' !! "y" = None
    /\ contexts_db st' !! "c" = Some committed
    /\ failed_tasks (task_queue st') = [validation_failure "c" "x"].
Proof.
  do 2 eexists. split; [by vm_compute|]. repeat split; by vm_compute.
Qed.

(** C9.  Deleting a stored context removes its entry and nothing else:
    every other context, the documents, both task lists and the limiter are
    as before. *)
Theorem delete_context_frame (context_id : string) (st : State) :
  is_Some (contexts_db st !! context_id) ->
  exists st',
    delete_context context_id st
      = (inr (message "Context deleted successfully"), st')
    /\ contexts_db st' !! context_id = None
    /\ (forall k, k ≠ context_id -> contexts_db st' !! k = contexts_db st !! k)
    /\ documents_db st' = documents_db st
    /\ task_queue st' = task_queue st
    /\ rate_limiter st' = rate_limiter st.
Proof.
  intros [context Hc]. unfold delete_context. rewrite Hc.
  eexists. split; [reflexivity|]. simpl.
  split; [apply lookup_delete_eq|].
  split; [|done].
  intros k Hk. by apply lookup_delete_ne.
Qed.

Lemma delete_context_frame_witness :
  exists st',
    delete_context "c" sample_state
      = (inr (message "Context deleted successfully"), st')
    /\ contexts_db st' !! "c" = None
    /\ (forall k, k ≠ "c" -> contexts_db st' !! k = contexts_db sample_state !! k)
    /\ documents_db st' = documents_db sample_state
    /\ task_queue st' = task_queue sample_state
    /\ rate_limiter st' = rate_limiter sample_state.
Proof.
  apply (delete_context_frame "c" sample_state).
  eexists. vm_compute. reflexivity.
Defined.

(** C10.  An update of a stored context commits the record under the path
    parameter [context_id] and keeps in it the id of the payload; no other
    key of [contexts_db] changes.  With the payload [sample_update_other_id]
    the update succeeds, the record stored under [c] has id [other], and
    nothing is stored under [other]. *)
Theorem update_context_key :
  (forall now context_id updated_context st,
     is_Some (contexts_db st !! context_id) ->
     exists committed st',
       update_context now context_id updated_context st
         = Some (inr committed, st')
       /\ ctx_id committed = ctx_id updated_context
       /\ contexts_db st' !! context_id = Some committed
       /\ (forall k, k ≠ context_id ->
           contexts_db st' !! k = contexts_db st !! k))
  /\ (exists committed st',
        update_context "2024-01-02T00:00:00" "c" sample_update_other_id
          sample_state = Some (inr committed, st')
        /\ contexts_db st' !! "c" = Some committed
        /\ ctx_id committed = "other"
        /\ ctx_id committed ≠ "c"
        /\ contexts_db st' !! "other" = None).
Proof.
  split.
  - intros now context_id updated_context st Hc.
    destruct (update_context_commits now context_id updated_context st Hc)
      as (documents & failed & Hup). simpl in Hup.
    do 2 eexists. split; [exact Hup|]. simpl.
    split; [done|]. split; [apply lookup_insert_eq|].
    intros k Hk. by apply lookup_insert_ne.
  - do 2 eexists. split; [by vm_compute|]. repeat split; by vm_compute.
Qed.

Lemma update_context_key_witness :
  exists committed st',
    update_context "2024-01-02T00:00:00" "c" sample_update_other_id sample_state
      = Some (inr committed, st')
    /\ ctx_id committed = ctx_id sample_update_other_id
    /\ contexts_db st' !! "c" = Some committed
    /\ (forall k, k ≠ "c" ->
        contexts_db st' !! k = contexts_db sample_state !! k).
Proof.
  apply (proj1 update_context_key "2024-01-02T00:00:00" "c"
           sample_update_other_id sample_state).
  eexists. vm_compute. reflexivity.
Defined.

Section DeleteDocument.
Implicit Types (st : State) (context : Context).

Lemma remove_first_once x (l : list string) :
  x ∈ l -> NoDup l -> x ∉ remove_first x l.
Proof.
  induction l as [|y l IH]; simpl; [intros; apply not_elem_of_nil|].
  intros Hx [Hy Hl]%NoDup_cons.
  destruct (decide (x = y)) as [->|Hne]; [done|].
  apply elem_of_cons in Hx as [?|Hx]; [done|].
  apply not_elem_of_cons. auto.
Qed.

(** What the cascade of [delete_document] does to each context: one
    occurrence of the id is dropped and [updated_at] refreshed where the
    id occurs; a context that does not list the id is left alone. *)
Lemma delete_document_cascade now_at document_id st :
  is_Some (documents_db st !! document_id) ->
  exists st',
    delete_document now_at document_id st
      = (inr (message "Document deleted successfully"), st')
    /\ documents_db st' = delete document_id (documents_db st)
    /\ task_queue st' = task_queue st
    /\ forall k,
         contexts_db st' !! k =
           detach_document document_id (now_at k) <$> contexts_db st !! k.
Proof.
  intros [document Hd]. unfold delete_document. rewrite Hd.
  eexists. split; [reflexivity|]. simpl. do 2 (split; [done|]).
  intros k. rewrite map_lookup_imap. by destruct (contexts_db st !! k).
Qed.

Lemma detach_document_absent document_id now context :
  document_id ∉ ctx_documents context ->
  detach_document document_id now context = context.
Proof. intros Hn. unfold detach_document. by rewrite decide_False. Qed.

Lemma detach_document_present document_id now context :
  document_id ∈ ctx_documents context ->
  ctx_updated_at (detach_document document_id now context) = now
  /\ ctx_documents (detach_document document_id now context) =
       remove_first document_id (ctx_documents context).
Proof. intros Hin. unfold detach_document. by rewrite decide_True. Qed.
End DeleteDocument.

Section ContextContent.
Implicit Types (db : gmap string Document) (documents : list string).

Lemma render_documents_omap db documents :
  render_documents db documents =
    omap (fun doc_id => render_document doc_id <$> db !! doc_id) documents.
Proof.
  induction documents as [|doc_id rest IH]; simpl; [done|].
  destruct (db !! doc_id); simpl; by rewrite IH.
Qed.

Lemma rendered_id_render doc_id document :
  rendered_id (render_document doc_id document) = Some doc_id.
Proof. unfold rendered_id, render_document. by simplify_map_eq. Qed.

Lemma render_documents_ids db documents :
  omap rendered_id (render_documents db documents) =
    List.filter (resolves db) documents.
Proof.
  induction documents as [|doc_id rest IH]; simpl; [done|].
  unfold resolves at 1.
  destruct (db !! doc_id) as [document|] eqn:Hd.
  - rewrite bool_decide_eq_true_2 by eauto.
    cbn [omap list_omap]. rewrite rendered_id_render. by rewrite <- IH.
  - rewrite bool_decide_eq_false_2; [done|]. by intros [? ?].
Qed.
Lemma render_documents_length db documents :
  length (render_documents db documents) =
    length (List.filter (resolves db) documents).
Proof.
  induction documents as [|doc_id rest IH]; simpl; [done|].
  unfold resolves at 1.
  destruct (db !! doc_id) as [document|] eqn:Hd.
  - rewrite bool_decide_eq_true_2 by eauto. simpl. by rewrite IH.
  - rewrite bool_decide_eq_false_2; [done|]. by intros [? ?].
Qed.
End ContextContent.

(** C7.  For a stored context the content endpoint answers with the
    requested id, the name of the context and a list that has, for each
    reference that resolves and in the order of the references, one
    dictionary holding exactly the reference id under [id], the content of
    the stored document under [content] and its metadata under [metadata];
    references that do not resolve are left out and raise nothing.  It
    answers 404 exactly when the context is not stored, and it never
    changes the state. *)
Theorem get_context_content_join :
  (forall context_id st context,
     contexts_db st !! context_id = Some context ->
     exists rendered,
       fst (get_context_content context_id st) =
         inr {[ "context_id" := PStr context_id;
                "name" := PStr (ctx_name context);
                "documents" := PList rendered ]}
       /\ rendered =
            omap (fun ref =>
                    (fun document =>
                       PDict {[ "id" := PStr ref;
                                "content" := PStr (doc_content document);
                                "metadata" := PDict (doc_metadata document) ]})
                      <$> documents_db st !! ref)
              (ctx_documents context)
       /\ omap rendered_id rendered =
            List.filter (resolves (documents_db st)) (ctx_documents context)
       /\ length rendered =
            length (List.filter (resolves (documents_db st))
                      (ctx_documents context)))
  /\ (forall context_id st,
        (exists ex, fst (get_context_content context_id st) = inl ex) <->
        contexts_db st !! context_id = None)
  /\ (forall context_id st,
        contexts_db st !! context_id = None ->
        fst (get_context_content context_id st) =
          inl (HTTPException 404 "Context not found"))
  /\ (forall context_id st, snd (get_context_content context_id st) = st).
Proof.
  split; [|split; [|split]].
  - intros context_id st context Hc. unfold get_context_content.
    rewrite Hc. cbn [fst].
    exists (render_documents (documents_db st) (ctx_documents context)).
    split; [done|]. split; [apply render_documents_omap|].
    split; [apply render_documents_ids|apply render_documents_length].
  - intros context_id st. unfold get_context_content.
    destruct (contexts_db st !! context_id); simpl.
    + split; [intros [ex Hex]; discriminate|discriminate].
    + split; [done|eauto].
  - intros context_id st Hc. unfold get_context_content. by rewrite Hc.
  - intros context_id st. unfold get_context_content.
    by destruct (contexts_db st !! context_id).
Qed.

(** Context [c] of [sample_state] with a dangling reference added. *)
Lemma get_context_content_join_witness :
  let st :=
    set_contexts_db
      {[ "c" := mkContext "c" "notes" ["gone"; "d"] None "t0" "t0" ]}
      sample_state in
  fst (get_context_content "c" st) =
    inr {[ "context_id" := PStr "c";
           "name" := PStr "notes";
           "documents" :=
             PList [PDict {[ "id" := PStr "d";
                             "content" := PStr "text";
                             "metadata" := PDict ∅ ]}] ]}
  /\ fst (get_context_content "missing" st) =
       inl (HTTPException 404 "Context not found").
Proof.
  destruct get_context_content_join as (Hjoin & _ & Hnone & _).
  intros st. split.
  - destruct (Hjoin "c" st
                (mkContext "c" "notes" ["gone"; "d"] None "t0" "t0")
                eq_refl) as (rendered & Hanswer & Hrendered & _).
    rewrite Hanswer, Hrendered. reflexivity.
  - apply Hnone. reflexivity.
Defined.

(** * Task queue proofs *)

(** C4.  Retry appends the failed list, as it is and in its order, to the
    pending list, whose former elements stay ahead, and empties the failed
    list; stores and limiter are untouched.  With nothing failed the state
    is left as it was. *)
Theorem retry_failed_tasks_moves (st : State) :
  let st' := snd (retry_failed_tasks st) in
  tasks (task_queue st') =
    tasks (task_queue st) ++ failed_tasks (task_queue st)
  /\ failed_tasks (task_queue st') = []
  /\ length (tasks (task_queue st')) =
       length (tasks (task_queue st)) + length (failed_tasks (task_queue st))
  /\ documents_db st' = documents_db st
  /\ contexts_db st' = contexts_db st
  /\ rate_limiter st' = rate_limiter st
  /\ (failed_tasks (task_queue st) = [] ->
      retry_failed_tasks st = (message "No failed tasks to retry", st)).
Proof.
  unfold retry_failed_tasks.
  destruct (failed_tasks (task_queue st)) as [|task failed] eqn:Hf; simpl.
  - rewrite Hf, app_nil_r. repeat split; lia.
  - rewrite length_app. repeat split; try done.
Qed.

Lemma retry_failed_tasks_moves_witness :
  retry_failed_tasks sample_state =
    (message "No failed tasks to retry", sample_state).
Proof. apply (retry_failed_tasks_moves sample_state). reflexivity. Defined.

(** * Processor proofs *)

Section ProcessorFacts.
Context {FV : FieldValidators}.
Implicit Types (e : Env) (st : State) (task : pydict) (ex : exn).

Lemma append_nonempty (s1 s2 : string) :
  s2 ≠ EmptyString -> s1 +:+ s2 ≠ EmptyString.
Proof. destruct s1; simpl; [done|discriminate]. Qed.

Lemma validation_error_str_nonempty model errors :
  exn_str (ValidationError model errors) ≠ EmptyString.
Proof. simpl. apply append_nonempty. discriminate. Qed.

Lemma new_Document_raises uuid now data ex :
  new_Document uuid now data = inl ex ->
  exists errors, ex = ValidationError "Document" errors.
Proof.
  unfold new_Document. intros H.
  repeat case_match; simplify_eq; eauto.
Qed.

Lemma new_Context_raises uuid now_c now_u data ex :
  new_Context uuid now_c now_u data = inl ex ->
  exists errors, ex = ValidationError "Context" errors.
Proof.
  unfold new_Context. intros H.
  repeat case_match; simplify_eq; eauto.
Qed.

Lemma unpack_kwargs_raises model v ex :
  unpack_kwargs model v = inl ex ->
  ex = TypeError (model +:+ "() argument after ** must be a mapping").
Proof. unfold unpack_kwargs. intros H. repeat case_match; by simplify_eq. Qed.

(** Whatever the try body raises has a non-empty [str]. *)
Lemma apply_task_error_nonempty e task st ex :
  apply_task e task st = inl ex -> exn_str ex ≠ EmptyString.
Proof.
  unfold apply_task. intros H.
  destruct (task !! "type") as [[| | |task_type| |]|]; try discriminate.
  destruct (decide (task_type = "create_document")).
  - destruct (unpack_kwargs _ _) as [ex1|data] eqn:Hk.
    + apply unpack_kwargs_raises in Hk. simplify_eq. discriminate.
    + destruct (new_Document _ _ _) as [ex1|document] eqn:Hn; [|done].
      apply new_Document_raises in Hn as [errors ->]. simplify_eq.
      apply validation_error_str_nonempty.
  - destruct (decide (task_type = "create_context")); [|done].
    destruct (unpack_kwargs _ _) as [ex1|data] eqn:Hk.
    + apply unpack_kwargs_raises in Hk. simplify_eq. discriminate.
    + destruct (new_Context _ _ _ _) as [ex1|context] eqn:Hn; [|done].
      apply new_Context_raises in Hn as [errors ->]. simplify_eq.
      apply validation_error_str_nonempty.
Qed.


(** A task of an unknown kind passes through the try body untouched. *)
Lemma apply_task_unrecognized e task st :
  unrecognized task -> apply_task e task st = inr st.
Proof.
  intros [Hd Hc]. unfold apply_task.
  destruct (task !! "type") as [[| | |task_type| |]|]; try done.
  destruct (decide (task_type = "create_document")) as [->|]; [done|].
  destruct (decide (task_type = "create_context")) as [->|]; done.
Qed.





End ProcessorFacts.

(** ** The claims about the processor *)

Section ProcessorClaims.
Context {FV : FieldValidators}.
Implicit Types (e : Env) (st : State) (task : pydict) (ex : exn).

(** C3, as the code has it.  An apply step whose head intent is of
    neither known kind pops the intent and drops it: no error is attached,
    the failed list stays as it is, and documents and contexts do not
    change. *)
Theorem unrecognized_intent_dropped e st task rest :
  tasks (task_queue st) = task :: rest ->
  unrecognized task ->
  exists st',
    apply_step e st = inr st'
    /\ tasks (task_queue st') = rest
    /\ failed_tasks (task_queue st') = failed_tasks (task_queue st)
    /\ documents_db st' = documents_db st
    /\ contexts_db st' = contexts_db st.
Proof.
  intros Ht Hu. unfold apply_step. rewrite Ht. simpl.
  rewrite (apply_task_unrecognized _ _ _ Hu). by eexists.
Qed.

End ProcessorClaims.

(** How an entry of unknown kind gets queued: [update_context] files one
    for the unresolved [x], and [retry_failed_tasks] moves it to pending. *)
Lemma unknown_intent_queued :
  exists committed st1,
    update_context "2024-01-02T00:00:00" "c" sample_update_unknown sample_state
      = Some (inr committed, st1)
    /\ tasks (task_queue (snd (retry_failed_tasks st1)))
         = [sample_unknown_task].
Proof. do 2 eexists. split; by vm_compute. Qed.

(** C3, as stated, fails on the entry that [update_context] files and
    [retry_failed_tasks] re-queues: the step drops it and the failed list
    is empty afterwards. *)
Lemma unrecognized_intent_not_failed :
  unrecognized sample_unknown_task
  /\ exists st',
       @apply_step strict_validators sample_env
         (set_tasks [sample_unknown_task] sample_state) = inr st'
       /\ failed_tasks (task_queue st') = []
       /\ tasks (task_queue st') = [].
Proof.
  split; [split; by vm_compute|].
  eexists. split; [by vm_compute|]. split; reflexivity.
Qed.

Lemma unrecognized_intent_dropped_witness :
  exists st',
    @apply_step strict_validators sample_env
      (set_tasks [sample_unknown_task; sample_good_task] sample_state)
      = inr st'
    /\ tasks (task_queue st') = [sample_good_task]
    /\ failed_tasks (task_queue st') = []
    /\ documents_db st' = documents_db sample_state
    /\ contexts_db st' = contexts_db sample_state.
Proof.
  apply (@unrecognized_intent_dropped strict_validators sample_env
           (set_tasks [sample_unknown_task; sample_good_task] sample_state)
           sample_unknown_task [sample_good_task]).
  - reflexivity.
  - split; by vm_compute.
Defined.


(** * Further properties: authentication, creation and reads *)

(** X1.  [verify_api_key] lets a request through exactly when it carries
    the header and the header equals the configured key, which is
    [test-api-key] when the environment variable is not set; a request
    without the header is refused whatever the configuration, and every
    refusal is a 401. *)
Theorem verify_api_key_accepts (MCP_API_KEY api_key : option string) :
  (forall key,
     verify_api_key MCP_API_KEY api_key = inr key <->
     api_key = Some key /\ key = default "test-api-key" MCP_API_KEY)
  /\ verify_api_key MCP_API_KEY None
       = inl (HTTPException 401 "Invalid API key")
  /\ verify_api_key None (Some "test-api-key") = inr "test-api-key"
  /\ (forall ex,
        verify_api_key MCP_API_KEY api_key = inl ex ->
        ex = HTTPException 401 "Invalid API key").
Proof.
  unfold verify_api_key. split; [|split; [done|split; [done|]]].
  - intros key. destruct api_key as [k|].
    + destruct (decide (k = default "test-api-key" MCP_API_KEY)) as [Hk|Hk].
      * split; [intros [= <-]; done|intros [[= <-] _]; done].
      * split; [done|intros [[= <-] Hkey]; done].
    + split; [done|intros [[=] _]].
  - intros ex. destruct api_key as [k|]; [|by intros [= <-]].
    destruct (decide (k = default "test-api-key" MCP_API_KEY));
      [done|by intros [= <-]].
Qed.

Section RoundTrip.
Context {FV : FieldValidators} {LV : LawfulValidators FV}.

Lemma mapM_validate_str (l : list string) :
  mapM validate_str (PStr <$> l) = Some l.
Proof.
  apply mapM_Some.
  induction l as [|s l IH]; simpl; constructor; [|done].
  apply validate_str_PStr.
Qed.

Lemma validate_opt_str_description (o : option string) :
  validate_opt_str (match o with Some s => PStr s | None => PNone end)
    = Some o.
Proof.
  destruct o as [s|]; simpl; [|done]. by rewrite validate_str_PStr.
Qed.

Lemma new_Document_of_dict (uuid now : string) (document : Document) :
  new_Document uuid now (Document_dict document) = inr document.
Proof.
  unfold new_Document, defaulted, required, Document_dict.
  simplify_map_eq. rewrite !validate_str_PStr, validate_dict_PDict.
  by destruct document.
Qed.

Lemma new_Context_of_dict (uuid now_c now_u : string) (context : Context) :
  new_Context uuid now_c now_u (Context_dict context) = inr context.
Proof.
  unfold new_Context, defaulted, required, Context_dict.
  simplify_map_eq.
  rewrite !validate_str_PStr, mapM_validate_str,
    validate_opt_str_description.
  by destruct context.
Qed.

(** X2.  A document written out with [dict()] and constructed again is the
    same document, whatever the default factories would supply: every
    field is read back from the dictionary. *)
Theorem new_Document_dict (uuid now : string) (document : Document) :
  new_Document uuid now (Document_dict document) = inr document.
Proof. apply new_Document_of_dict. Qed.

(** X3.  A context written out with [dict()] and constructed again is the
    same context, document list and optional description included. *)
Theorem new_Context_dict (uuid now_c now_u : string) (context : Context) :
  new_Context uuid now_c now_u (Context_dict context) = inr context.
Proof. apply new_Context_of_dict. Qed.

Lemma apply_create_document_task e document st :
  apply_task e (create_document_task document) st =
    inr (set_documents_db
           (<[doc_id document := document]> (documents_db st)) st).
Proof.
  unfold apply_task, create_document_task. simplify_map_eq. simpl.
  by rewrite new_Document_of_dict.
Qed.

Lemma apply_create_context_task e context st :
  apply_task e (create_context_task context) st =
    inr (set_contexts_db
           (<[ctx_id context := context]> (contexts_db st)) st).
Proof.
  unfold apply_task, create_context_task. simplify_map_eq. simpl.
  by rewrite new_Context_of_dict.
Qed.

(** X4.  A document accepted by [create_document] is not readable until
    the processor has applied the intent: right after the call the store
    answers as before; once an admitted turn of the loop has taken the
    intent from an otherwise empty queue, [get_document] returns the
    document as submitted, and nothing has been filed as failed. *)
Theorem create_document_then_process e document st rl :
  tasks (task_queue st) = [] ->
  is_rate_limited (time_time e) (rate_limiter st) = (false, rl) ->
  let st1 := snd (create_document document st) in
  fst (create_document document st) = document
  /\ fst (get_document (doc_id document) st1)
       = fst (get_document (doc_id document) st)
  /\ exists st2,
       loop_turn e st1 = inr st2
       /\ fst (get_document (doc_id document) st2) = inr document
       /\ tasks (task_queue st2) = []
       /\ failed_tasks (task_queue st2) = failed_tasks (task_queue st)
       /\ contexts_db st2 = contexts_db st.
Proof.
  intros Hempty Hrl. cbv zeta. split; [reflexivity|].
  split.
  { unfold get_document, create_document. cbn [snd set_tasks documents_db].
    by destruct (documents_db st !! doc_id document). }
  unfold loop_turn, create_document. cbn [snd set_tasks task_queue tasks
    rate_limiter]. rewrite Hempty. cbn [app]. rewrite Hrl.
  unfold apply_step. cbn [set_rate_limiter set_tasks task_queue tasks pop0
    failed_tasks documents_db contexts_db rate_limiter].
  rewrite apply_create_document_task. eexists. split; [done|].
  unfold get_document. cbn [set_documents_db documents_db task_queue tasks
    failed_tasks contexts_db].
  by rewrite lookup_insert_eq.
Qed.

(** X5.  The same for a context accepted by [create_context]: it is stored
    under its own id by the turn that applies it, and [get_context] then
    returns it as submitted, references unchecked. *)
Theorem create_context_then_process e context st rl :
  tasks (task_queue st) = [] ->
  is_rate_limited (time_time e) (rate_limiter st) = (false, rl) ->
  let st1 := snd (create_context context st) in
  fst (get_context (ctx_id context) st1)
    = fst (get_context (ctx_id context) st)
  /\ exists st2,
       loop_turn e st1 = inr st2
       /\ fst (get_context (ctx_id context) st2) = inr context
       /\ tasks (task_queue st2) = []
       /\ failed_tasks (task_queue st2) = failed_tasks (task_queue st)
       /\ documents_db st2 = documents_db st.
Proof.
  intros Hempty Hrl. cbv zeta.
  split.
  { unfold get_context, create_context. cbn [snd set_tasks contexts_db].
    by destruct (contexts_db st !! ctx_id context). }
  unfold loop_turn, create_context. cbn [snd set_tasks task_queue tasks
    rate_limiter]. rewrite Hempty. cbn [app]. rewrite Hrl.
  unfold apply_step. cbn [set_rate_limiter set_tasks task_queue tasks pop0
    failed_tasks documents_db contexts_db rate_limiter].
  rewrite apply_create_context_task. eexists. split; [done|].
  unfold get_context. cbn [set_contexts_db documents_db task_queue tasks
    failed_tasks contexts_db].
  by rewrite lookup_insert_eq.
Qed.
End RoundTrip.

(** * Further properties: the store endpoints *)

Section RemoveFirst.
Implicit Types (x y : string) (l : list string).

Lemma remove_first_sublist x l : sublist (remove_first x l) l.
Proof.
  induction l as [|y l IH]; simpl; [constructor|].
  destruct (decide (x = y)); [by apply sublist_cons|by apply sublist_skip].
Qed.

Lemma remove_first_perm x l : x ∈ l -> l ≡ₚ x :: remove_first x l.
Proof.
  induction l as [|y l IH]; simpl.
  - intros H. by apply not_elem_of_nil in H.
  - intros H. destruct (decide (x = y)) as [->|Hne]; [done|].
    apply elem_of_cons in H as [?|H]; [done|].
    rewrite (IH H) at 1. apply Permutation_swap.
Qed.

Lemma remove_first_filter (p : string -> bool) x l :
  p x = false -> List.filter p (remove_first x l) = List.filter p l.
Proof.
  intros Hp. induction l as [|y l IH]; simpl; [done|].
  destruct (decide (x = y)) as [->|Hne].
  - by rewrite Hp.
  - simpl. by rewrite IH.
Qed.

Lemma remove_first_app_r x (l1 l2 : list string) :
  x ∉ l1 -> remove_first x (l1 ++ x :: l2) = l1 ++ l2.
Proof.
  induction l1 as [|y l1 IH]; simpl.
  - intros _. by rewrite decide_True.
  - intros [Hne Hl]%not_elem_of_cons. rewrite decide_False by done.
    by rewrite IH.
Qed.

Lemma remove_first_NoDup x l :
  NoDup l ->
  remove_first x l = List.filter (fun y => bool_decide (y ≠ x)) l.
Proof.
  induction l as [|y l IH]; simpl; [done|].
  intros [Hy Hl]%NoDup_cons.
  destruct (decide (x = y)) as [->|Hne].
  - rewrite bool_decide_eq_false_2 by (intros H; by apply H).
    clear IH. induction l as [|z l IHl]; simpl; [done|].
    apply not_elem_of_cons in Hy as [Hz Hy]. apply NoDup_cons in Hl as [_ Hl].
    rewrite bool_decide_eq_true_2 by done. f_equal. by apply IHl.
  - rewrite bool_decide_eq_true_2 by done. f_equal. by apply IH.
Qed.

Lemma remove_first_others x l :
  List.filter (fun y => bool_decide (y ≠ x)) (remove_first x l) =
  List.filter (fun y => bool_decide (y ≠ x)) l.
Proof.
  apply remove_first_filter. apply bool_decide_eq_false_2.
  intros H. by apply H.
Qed.
End RemoveFirst.

Section DeleteDocumentMore.
Implicit Types (st : State) (context : Context).

(** X6.  [delete_document] touches nothing but references to the deleted
    id: the same context keys are stored afterwards, each context keeps its
    id, name, description and creation time, and its document list with the
    deleted id left out reads the same before and after; [updated_at]
    changes only where the id was listed. *)
Theorem delete_document_frame now_at document_id st :
  is_Some (documents_db st !! document_id) ->
  let st' := snd (delete_document now_at document_id st) in
  (forall k, k ≠ document_id -> documents_db st' !! k = documents_db st !! k)
  /\ documents_db st' !! document_id = None
  /\ task_queue st' = task_queue st
  /\ rate_limiter st' = rate_limiter st
  /\ forall k,
       match contexts_db st !! k, contexts_db st' !! k with
       | Some c, Some c' =>
           ctx_id c' = ctx_id c /\ ctx_name c' = ctx_name c
           /\ ctx_description c' = ctx_description c
           /\ ctx_created_at c' = ctx_created_at c
           /\ List.filter (fun y => bool_decide (y ≠ document_id))
                (ctx_documents c') =
              List.filter (fun y => bool_decide (y ≠ document_id))
                (ctx_documents c)
           /\ (document_id ∉ ctx_documents c -> c' = c)
           /\ (document_id ∈ ctx_documents c -> ctx_updated_at c' = now_at k)
       | None, None => True
       | _, _ => False
       end.
Proof.
  intros Hd. destruct (delete_document_cascade now_at document_id st Hd)
    as (st' & Heq & Hdocs & Hq & Hctx).
  rewrite Heq. cbn [snd].
  split; [intros k Hk; rewrite Hdocs; by apply lookup_delete_ne|].
  split; [rewrite Hdocs; apply lookup_delete_eq|].
  split; [done|].
  split.
  { destruct Hd as [document Hd]. unfold delete_document in Heq.
    rewrite Hd in Heq. by simplify_eq. }
  intros k. rewrite Hctx. destruct (contexts_db st !! k) as [c|]; [|done].
  cbn [fmap option_fmap option_map]. unfold detach_document.
  destruct (decide (document_id ∈ ctx_documents c)) as [Hin|Hnin];
    cbn [ctx_id ctx_name ctx_description ctx_created_at ctx_documents
         ctx_updated_at].
  - rewrite remove_first_others. repeat split; done.
  - repeat split; done.
Qed.

(** X7.  When no context lists an id twice, deleting a stored document
    leaves no reference to it in any context: each list becomes the old one
    without the id. *)
Theorem delete_document_restores_integrity now_at document_id st :
  is_Some (documents_db st !! document_id) ->
  (forall k c, contexts_db st !! k = Some c -> NoDup (ctx_documents c)) ->
  forall k c',
    contexts_db (snd (delete_document now_at document_id st)) !! k = Some c' ->
    (document_id ∉ ctx_documents c')
    /\ exists c,
         contexts_db st !! k = Some c
         /\ ctx_documents c' =
              List.filter (fun y => bool_decide (y ≠ document_id))
                (ctx_documents c).
Proof.
  intros Hd Hnodup k c' Hk.
  destruct (delete_document_cascade now_at document_id st Hd)
    as (st' & Heq & _ & _ & Hctx).
  rewrite Heq in Hk. cbn [snd] in Hk. rewrite Hctx in Hk.
  destruct (contexts_db st !! k) as [c|] eqn:Hc; [|done].
  cbn [fmap option_fmap option_map] in Hk. injection Hk as <-.
  specialize (Hnodup k c Hc).
  assert (ctx_documents (detach_document document_id (now_at k) c) =
            List.filter (fun y => bool_decide (y ≠ document_id))
              (ctx_documents c)) as Hdocs.
  { unfold detach_document.
    destruct (decide (document_id ∈ ctx_documents c)) as [Hin|Hnin]; simpl.
    - by apply remove_first_NoDup.
    - rewrite <- (remove_first_NoDup document_id) by done.
      by rewrite remove_first_absent. }
  split; [|by exists c].
  rewrite Hdocs. intros [_ Hne%bool_decide_eq_true]%list_elem_of_In%List.filter_In.
  by apply Hne.
Qed.

(** X8.  After a document is deleted the content endpoint never renders
    it, even for a context that still lists its id. *)
Theorem deleted_document_not_rendered now_at document_id st :
  is_Some (documents_db st !! document_id) ->
  forall documents,
    document_id ∉
      (omap rendered_id
         (render_documents
            (documents_db (snd (delete_document now_at document_id st)))
            documents)).
Proof.
  intros Hd documents.
  destruct (delete_document_cascade now_at document_id st Hd)
    as (st' & Heq & Hdocs & _ & _).
  rewrite Heq. cbn [snd]. rewrite render_documents_ids.
  intros [_ Hres]%list_elem_of_In%List.filter_In.
  unfold resolves in Hres. apply bool_decide_eq_true in Hres as [d Hres].
  rewrite Hdocs, lookup_delete_eq in Hres. done.
Qed.
End DeleteDocumentMore.

Section UpdateContextMore.
Implicit Types (db : gmap string Document) (st : State).

Lemma resolves_true db x : resolves db x = true <-> is_Some (db !! x).
Proof. unfold resolves. apply bool_decide_eq_true. Qed.

Lemma resolves_false db x : resolves db x = false <-> db !! x = None.
Proof.
  unfold resolves. rewrite bool_decide_eq_false.
  rewrite <- eq_None_not_Some. done.
Qed.

(** What the validation loop does on any list: only unknown ids leave it,
    and each one that leaves is reported once, after the entries already
    filed. *)
Lemma validate_documents_removes db context_id fuel i documents failed
    documents' failed' :
  validate_documents db context_id fuel i documents failed
    = Some (inr documents', failed') ->
  exists removed,
    failed' = failed ++ (validation_failure context_id <$> removed)
    /\ Forall (fun x => db !! x = None) removed
    /\ documents ≡ₚ documents' ++ removed
    /\ sublist documents' documents
    /\ List.filter (resolves db) documents'
         = List.filter (resolves db) documents.
Proof.
  revert i documents failed.
  induction fuel as [|fuel IH]; intros i documents failed; simpl.
  - destruct (documents !! i) as [doc_id|]; [done|].
    intros [= <- <-]. exists []. simpl. rewrite !app_nil_r. by repeat split.
  - destruct (documents !! i) as [doc_id|] eqn:Hi.
    2:{ intros [= <- <-]. exists []. simpl. rewrite !app_nil_r.
        by repeat split. }
    destruct (db !! doc_id) as [document|] eqn:Hdb.
    + apply IH.
    + rewrite (list_remove_lookup _ _ _ Hi). intros Hrun.
      apply IH in Hrun as (removed & -> & Hun & Hperm & Hsub & Hfilter).
      exists (doc_id :: removed). split; [by rewrite <- app_assoc|].
      split; [by constructor|].
      pose proof (list_elem_of_lookup_2 _ _ _ Hi) as Hin.
      split; [|split].
      * rewrite (remove_first_perm doc_id documents Hin), Hperm.
        by rewrite Permutation_middle.
      * etrans; [exact Hsub|apply remove_first_sublist].
      * rewrite Hfilter. apply remove_first_filter. by apply resolves_false.
Qed.

(** X9.  Whatever list is submitted, a successful [update_context] commits
    a sub-sequence of it that keeps every id known to the store, in order;
    the ids it leaves out are all unknown, and exactly those are reported,
    one entry each, behind the entries already in the failed list.  Pending
    tasks, documents and the limiter are not touched. *)
Theorem update_context_filters now context_id updated_context st :
  is_Some (contexts_db st !! context_id) ->
  exists committed st' removed,
    update_context now context_id updated_context st
      = Some (inr committed, st')
    /\ sublist (ctx_documents committed) (ctx_documents updated_context)
    /\ List.filter (resolves (documents_db st)) (ctx_documents committed)
         = List.filter (resolves (documents_db st))
             (ctx_documents updated_context)
    /\ ctx_documents updated_context
         ≡ₚ ctx_documents committed ++ removed
    /\ Forall (fun x => documents_db st !! x = None) removed
    /\ failed_tasks (task_queue st') =
         failed_tasks (task_queue st)
           ++ (validation_failure context_id <$> removed)
    /\ ctx_updated_at committed = now
    /\ tasks (task_queue st') = tasks (task_queue st)
    /\ documents_db st' = documents_db st
    /\ rate_limiter st' = rate_limiter st.
Proof.
  intros [old Hold]. unfold update_context. rewrite Hold.
  destruct (validate_documents_total (documents_db st) context_id
              (length (ctx_documents updated_context)) 0
              (ctx_documents updated_context)
              (failed_tasks (task_queue st)))
    as (documents & failed & Hloop); [lia|].
  rewrite Hloop.
  apply validate_documents_removes in Hloop
    as (removed & Hfailed & Hun & Hperm & Hsub & Hfilter).
  do 2 eexists. exists removed. split; [reflexivity|].
  cbn [ctx_documents ctx_updated_at set_contexts_db set_failed_tasks
       task_queue failed_tasks tasks documents_db rate_limiter].
  repeat split; done.
Qed.

Lemma no_unresolved_neighbours_tail db x l :
  no_unresolved_neighbours db (x :: l) = true ->
  no_unresolved_neighbours db l = true.
Proof.
  destruct l as [|y l]; [done|]. cbn [no_unresolved_neighbours].
  by intros [_ H]%andb_true_iff.
Qed.

(** The loop on a list whose part before the index is known to the store
    and whose part from the index on has no two unknown neighbours. *)
Lemma validate_documents_neighbours db context_id fuel pre suf failed :
  Forall (fun x => is_Some (db !! x)) pre ->
  no_unresolved_neighbours db suf = true ->
  length suf <= fuel ->
  validate_documents db context_id fuel (length pre) (pre ++ suf) failed =
    Some (inr (pre ++ List.filter (resolves db) suf),
          failed
            ++ (validation_failure context_id
                  <$> List.filter (fun x => negb (resolves db x)) suf)).
Proof.
  revert pre suf failed.
  induction fuel as [|fuel IH]; intros pre suf failed Hpre Hsuf Hfuel.
  - destruct suf; [|simpl in Hfuel; lia]. simpl.
    rewrite !app_nil_r. by rewrite lookup_ge_None_2.
  - destruct suf as [|x suf].
    { simpl. rewrite !app_nil_r. by rewrite lookup_ge_None_2. }
    cbn [validate_documents]. rewrite list_lookup_middle by done.
    cbn [List.filter]. destruct (resolves db x) eqn:Hx.
    + apply resolves_true in Hx as Hsome. destruct Hsome as [document ->].
      replace (pre ++ x :: suf) with ((pre ++ [x]) ++ suf)
        by (by rewrite <- app_assoc).
      replace (S (length pre)) with (length (pre ++ [x]))
        by (rewrite length_app; simpl; lia).
      rewrite IH.
      * by rewrite <- app_assoc.
      * apply Forall_app. split; [done|]. constructor; [|done].
        by apply resolves_true.
      * by eapply no_unresolved_neighbours_tail.
      * simpl in Hfuel. lia.
    + apply resolves_false in Hx as Hnone. rewrite Hnone.
      assert (x ∉ pre) as Hnotin.
      { intros Hin. rewrite List.Forall_forall in Hpre.
        apply list_elem_of_In in Hin. destruct (Hpre _ Hin). congruence. }
      unfold list_remove. rewrite decide_True
        by (apply elem_of_app; right; apply elem_of_cons; by left).
      rewrite remove_first_app_r by done.
      cbn [negb fmap list_fmap]. destruct suf as [|y suf].
      * cbn [List.filter fmap list_fmap]. rewrite !app_nil_r.
        destruct fuel; simpl; by rewrite lookup_ge_None_2 by lia.
      * cbn [no_unresolved_neighbours] in Hsuf. rewrite Hx in Hsuf.
        apply andb_true_iff in Hsuf as [Hy Hsuf]. cbn [orb] in Hy.
        replace (pre ++ y :: suf) with ((pre ++ [y]) ++ suf)
          by (by rewrite <- app_assoc).
        replace (S (length pre)) with (length (pre ++ [y]))
          by (rewrite length_app; simpl; lia).
        rewrite IH.
        -- cbn [List.filter]. rewrite Hy. cbn [negb].
           rewrite <- !app_assoc. done.
        -- apply Forall_app. split; [done|]. constructor; [|done].
           by apply resolves_true.
        -- by eapply no_unresolved_neighbours_tail.
        -- simpl in Hfuel. lia.
Qed.

(** X10.  When no two neighbours of the submitted list are both unknown to
    the store, [update_context] commits exactly the known ids, in order,
    and files one entry per unknown id, in order. *)
Theorem update_context_filter_on_write now context_id updated_context st :
  is_Some (contexts_db st !! context_id) ->
  no_unresolved_neighbours (documents_db st) (ctx_documents updated_context)
    = true ->
  exists committed st',
    update_context now context_id updated_context st
      = Some (inr committed, st')
    /\ ctx_documents committed =
         List.filter (resolves (documents_db st))
           (ctx_documents updated_context)
    /\ failed_tasks (task_queue st') =
         failed_tasks (task_queue st)
           ++ (validation_failure context_id
                 <$> List.filter
                       (fun x => negb (resolves (documents_db st) x))
                       (ctx_documents updated_context))
    /\ contexts_db st' !! context_id = Some committed.
Proof.
  intros [old Hold] Hnb. unfold update_context. rewrite Hold.
  pose proof (validate_documents_neighbours (documents_db st) context_id
                (length (ctx_documents updated_context)) []
                (ctx_documents updated_context)
                (failed_tasks (task_queue st))) as Hloop.
  cbn [length app] in Hloop. rewrite Hloop; [|done|done|done].
  do 2 eexists. split; [reflexivity|].
  cbn [ctx_documents set_contexts_db set_failed_tasks task_queue
       failed_tasks contexts_db app].
  split; [done|]. split; [done|]. apply lookup_insert_eq.
Qed.
End UpdateContextMore.

(** * Further properties: the processor and the reachable states *)

Section ProcessorMore.
Context {FV : FieldValidators}.
Implicit Types (e : Env) (st : State) (task : pydict) (ex : exn).

(** A successful try body stores one document or one context under its
    own id, or (unknown kind) does nothing. *)
Lemma apply_task_effect e task st st' :
  apply_task e task st = inr st' ->
  st' = st
  \/ (exists document,
        st' = set_documents_db
                (<[doc_id document := document]> (documents_db st)) st)
  \/ (exists context,
        st' = set_contexts_db
                (<[ctx_id context := context]> (contexts_db st)) st).
Proof.
  unfold apply_task. intros H.
  repeat case_match; simplify_eq; eauto.
Qed.

(** The three ways a turn of the loop can go. *)
Lemma loop_turn_cases e st st' :
  loop_turn e st = inr st' ->
  (tasks (task_queue st) = [] /\ st' = st)
  \/ (exists rl,
        tasks (task_queue st) ≠ []
        /\ is_rate_limited (time_time e) (rate_limiter st) = (true, rl)
        /\ st' = set_rate_limiter rl st)
  \/ (exists rl task rest,
        tasks (task_queue st) = task :: rest
        /\ is_rate_limited (time_time e) (rate_limiter st) = (false, rl)
        /\ let st1 := set_tasks rest (set_rate_limiter rl st) in
           apply_task e task st1 = inr st'
           \/ exists ex,
                apply_task e task st1 = inl ex
                /\ st' = handle_failure ex task st1).
Proof.
  unfold loop_turn.
  destruct (tasks (task_queue st)) as [|task rest] eqn:Ht.
  { intros [= <-]. by left. }
  destruct (is_rate_limited _ _) as [[] rl] eqn:Hrl.
  { intros [= <-]. right. left. by exists rl. }
  unfold apply_step. cbn [set_rate_limiter task_queue]. rewrite Ht.
  cbn [pop0]. intros H. right. right. exists rl, task, rest.
  split; [done|]. split; [done|]. cbv zeta.
  unfold set_tasks, set_rate_limiter in *.
  cbn [documents_db contexts_db task_queue rate_limiter failed_tasks] in *.
  destruct (apply_task e task _) as [ex|st2] eqn:Ha.
  - right. exists ex. split; [done|]. by injection H as <-.
  - left. by injection H as <-.
Qed.
End ProcessorMore.

Section ProcessorRuns.
Context {FV : FieldValidators}.
Implicit Types (e : Env) (st : State) (task : pydict) (ex : exn).

Lemma apply_task_keeps e task st st' :
  apply_task e task st = inr st' ->
  task_queue st' = task_queue st
  /\ rate_limiter st' = rate_limiter st
  /\ (forall k, is_Some (documents_db st !! k) ->
        is_Some (documents_db st' !! k))
  /\ (forall k, is_Some (contexts_db st !! k) ->
        is_Some (contexts_db st' !! k)).
Proof.
  intros [->|[[document ->]|[context ->]]]%apply_task_effect;
    cbn [set_documents_db set_contexts_db task_queue rate_limiter
         documents_db contexts_db];
    repeat split; try done; intros k Hk.
  - destruct (decide (doc_id document = k)) as [->|Hne].
    + rewrite lookup_insert_eq. eauto.
    + by rewrite lookup_insert_ne.
  - destruct (decide (ctx_id context = k)) as [->|Hne].
    + rewrite lookup_insert_eq. eauto.
    + by rewrite lookup_insert_ne.
Qed.

(** X11.  A turn of the loop on an empty queue changes nothing, the
    limiter included: idling uses up no admission.  A turn that the limiter
    rejects takes no intent: queue, failed list and stores are as before,
    and the limiter has recorded no new instant. *)
Theorem loop_turn_without_work e st :
  (tasks (task_queue st) = [] -> loop_turn e st = inr st)
  /\ (forall rl,
        tasks (task_queue st) ≠ [] ->
        is_rate_limited (time_time e) (rate_limiter st) = (true, rl) ->
        exists st',
          loop_turn e st = inr st'
          /\ task_queue st' = task_queue st
          /\ documents_db st' = documents_db st
          /\ contexts_db st' = contexts_db st
          /\ request_times (rate_limiter st') =
               List.filter (in_window (time_time e))
                 (request_times (rate_limiter st))).
Proof.
  split.
  - intros Ht. unfold loop_turn. by rewrite Ht.
  - intros rl Ht Hrl. unfold loop_turn.
    destruct (tasks (task_queue st)) as [|task rest]; [done|].
    rewrite Hrl. eexists. split; [reflexivity|].
    cbn [set_rate_limiter task_queue documents_db contexts_db rate_limiter].
    do 3 (split; [done|]).
    pose proof (is_rate_limited_times (time_time e) (rate_limiter st)) as H.
    rewrite Hrl in H. cbn [fst snd] in H. by rewrite app_nil_r in H.
Qed.

Lemma loop_turn_monotone e st st' :
  loop_turn e st = inr st' ->
  (forall k, is_Some (documents_db st !! k) -> is_Some (documents_db st' !! k))
  /\ (forall k, is_Some (contexts_db st !! k) ->
        is_Some (contexts_db st' !! k))
  /\ failed_tasks (task_queue st) `prefix_of` failed_tasks (task_queue st')
  /\ exists n,
       n <= 1
       /\ tasks (task_queue st') = drop n (tasks (task_queue st))
       /\ length (failed_tasks (task_queue st'))
            <= length (failed_tasks (task_queue st)) + n.
Proof.
  intros [[Ht ->]|[(rl & Ht & Hrl & ->)|(rl & task & rest & Ht & Hrl & Ha)]]
    %loop_turn_cases.
  - repeat split; try done. exists 0. split; [lia|]. split; [done|lia].
  - cbn [set_rate_limiter task_queue documents_db contexts_db].
    repeat split; try done. exists 0. split; [lia|]. split; [done|lia].
  - cbv zeta in Ha. destruct Ha as [Ha|(ex & Ha & ->)].
    + apply apply_task_keeps in Ha as (Hq & _ & Hd & Hc).
      rewrite Hq.
      cbn [set_tasks set_rate_limiter task_queue documents_db contexts_db
           tasks failed_tasks] in *.
      split; [done|]. split; [done|]. split; [done|].
      exists 1. rewrite Ht. split; [lia|]. split; [done|lia].
    + cbn [handle_failure set_failed_tasks set_tasks set_rate_limiter
           task_queue documents_db contexts_db tasks failed_tasks].
      split; [done|]. split; [done|].
      split; [by apply prefix_app_r|].
      exists 1. rewrite Ht. split; [lia|]. split; [done|].
      rewrite length_app. simpl. lia.
Qed.

(** X12.  However many turns the loop runs, it never removes a document
    or a context, never drops or reorders an entry of the failed list (the
    old list is a prefix of the new one), and takes pending intents from
    the head only, at most one per turn: what is left pending is the old
    queue without its first [n] intents, and at most [n] entries were
    filed. *)
Theorem processor_monotone es st st' :
  process_task_queue es st = inr st' ->
  (forall k, is_Some (documents_db st !! k) -> is_Some (documents_db st' !! k))
  /\ (forall k, is_Some (contexts_db st !! k) ->
        is_Some (contexts_db st' !! k))
  /\ failed_tasks (task_queue st) `prefix_of` failed_tasks (task_queue st')
  /\ exists n,
       n <= length es
       /\ tasks (task_queue st') = drop n (tasks (task_queue st))
       /\ length (failed_tasks (task_queue st'))
            <= length (failed_tasks (task_queue st)) + n.
Proof.
  revert st. induction es as [|e es IH]; intros st; simpl.
  - intros [= <-]. repeat split; try done.
    exists 0. split; [lia|]. split; [done|lia].
  - destruct (loop_turn e st) as [ex|st1] eqn:Hturn; [done|].
    intros Hrun. apply IH in Hrun as (Hd & Hc & Hf & n & Hn & Ht & Hl).
    apply loop_turn_monotone in Hturn
      as (Hd1 & Hc1 & Hf1 & n1 & Hn1 & Ht1 & Hl1).
    split; [intros k Hk; by apply Hd, Hd1|].
    split; [intros k Hk; by apply Hc, Hc1|].
    split; [by etrans|].
    exists (n1 + n). split; [lia|].
    split; [by rewrite Ht, Ht1, drop_drop|lia].
Qed.
End ProcessorRuns.

Section Throughput.
Context {FV : FieldValidators}.
Implicit Types (e : Env) (st : State) (ts : list Q).

Lemma within_window_app ts1 ts2 :
  within_window (ts1 ++ ts2) = true ->
  within_window ts1 = true /\ within_window ts2 = true.
Proof.
  induction ts1 as [|t ts1 IH]; simpl; [done|].
  rewrite forallb_app. intros [[H1 H2]%andb_true_iff H3]%andb_true_iff.
  apply IH in H3 as [H3 H4]. by rewrite H1, H3.
Qed.

Lemma within_window_middle ts1 t ts2 :
  within_window (ts1 ++ t :: ts2) = true ->
  forallb (in_window t) ts1 = true /\ within_window (ts1 ++ ts2) = true.
Proof.
  induction ts1 as [|u ts1 IH]; simpl.
  - by intros [_ H]%andb_true_iff.
  - rewrite !forallb_app. simpl.
    intros [[H1 [H2 H3]%andb_true_iff]%andb_true_iff H4]%andb_true_iff.
    apply IH in H4 as [H4 H5]. by rewrite H1, H2, H3, H4, H5.
Qed.

(** One turn inside a window in which nothing expires: an intent leaves
    the queue only against an instant recorded by the limiter. *)
Lemma loop_turn_budget e st st' rest :
  loop_turn e st = inr st' ->
  within_window (request_times (rate_limiter st) ++ time_time e :: rest)
    = true ->
  (Z.of_nat (length (request_times (rate_limiter st)))
     <= requests_per_minute (rate_limiter st))%Z ->
  within_window (request_times (rate_limiter st') ++ rest) = true
  /\ (Z.of_nat (length (request_times (rate_limiter st')))
        <= requests_per_minute (rate_limiter st'))%Z
  /\ requests_per_minute (rate_limiter st')
       = requests_per_minute (rate_limiter st)
  /\ length (tasks (task_queue st'))
       + length (request_times (rate_limiter st'))
     = length (tasks (task_queue st))
       + length (request_times (rate_limiter st)).
Proof.
  intros Hturn Hw Hcap.
  apply within_window_middle in Hw as Hmid. destruct Hmid as [Hin Hw'].
  pose proof (filter_keep_all _ _ Hin) as Hkeep.
  pose proof (is_rate_limited_times (time_time e) (rate_limiter st)) as Htimes.
  pose proof (is_rate_limited_answer (time_time e) (rate_limiter st)) as Hans.
  pose proof (is_rate_limited_rpm (time_time e) (rate_limiter st)) as Hrpm.
  rewrite Hkeep in Htimes, Hans.
  apply loop_turn_cases in Hturn
    as [[Ht ->]|[(rl & Ht & Hrl & ->)|(rl & task & rest' & Ht & Hrl & Ha)]].
  - done.
  - rewrite Hrl in Htimes, Hrpm. cbn [fst snd] in *.
    rewrite app_nil_r in Htimes.
    cbn [set_rate_limiter rate_limiter task_queue]. rewrite Htimes, Hrpm.
    done.
  - rewrite Hrl in Htimes, Hrpm, Hans. cbn [fst snd] in *.
    symmetry in Hans. apply Z.leb_gt in Hans.
    assert (rate_limiter st' = rl /\ tasks (task_queue st') = rest')
      as [-> ->].
    { cbv zeta in Ha. destruct Ha as [Ha|(ex & _ & ->)].
      - apply apply_task_keeps in Ha as (-> & -> & _). done.
      - done. }
    rewrite Htimes, Hrpm, Ht, length_app. cbn [length].
    rewrite <- app_assoc. cbn [app].
    split; [done|]. split; [lia|]. split; [done|lia].
Qed.

(** X13.  Over turns whose clock readings, together with the instants the
    limiter already holds, fit in one 60-second window, the loop takes from
    the queue no more intents than the limiter has room left:
    [requests_per_minute] minus the instants already recorded. *)
Theorem processor_throughput es st st' :
  process_task_queue es st = inr st' ->
  within_window (request_times (rate_limiter st) ++ (time_time <$> es))
    = true ->
  (Z.of_nat (length (request_times (rate_limiter st)))
     <= requests_per_minute (rate_limiter st))%Z ->
  (Z.of_nat (length (tasks (task_queue st)))
     - Z.of_nat (length (tasks (task_queue st')))
   <= requests_per_minute (rate_limiter st)
      - Z.of_nat (length (request_times (rate_limiter st))))%Z
  /\ length (tasks (task_queue st')) <= length (tasks (task_queue st)).
Proof.
  intros Hrun Hw Hcap.
  assert ((Z.of_nat (length (request_times (rate_limiter st')))
             <= requests_per_minute (rate_limiter st'))%Z
          /\ requests_per_minute (rate_limiter st')
               = requests_per_minute (rate_limiter st)
          /\ length (tasks (task_queue st'))
               + length (request_times (rate_limiter st'))
             = length (tasks (task_queue st))
               + length (request_times (rate_limiter st))
          /\ length (tasks (task_queue st'))
               <= length (tasks (task_queue st))) as H.
  { revert st Hrun Hw Hcap.
    induction es as [|e es IH]; intros st; simpl.
    - intros [= <-]. done.
    - destruct (loop_turn e st) as [ex|st1] eqn:Hturn; [done|].
      intros Hrun Hw Hcap.
      pose proof (loop_turn_monotone e st st1 Hturn)
        as (_ & _ & _ & n & _ & Hdrop & _).
      apply (f_equal length) in Hdrop. rewrite length_drop in Hdrop.
      destruct (loop_turn_budget e st st1 _ Hturn Hw Hcap)
        as (Hw1 & Hcap1 & Hrpm1 & Hsum1).
      destruct (IH st1 Hrun Hw1 Hcap1) as (Hc & Hr & Hs & Hle).
      split; [done|]. split; [congruence|]. split; lia. }
  destruct H as (Hc & Hr & Hs & Hle). split; [lia|done].
Qed.
End Throughput.

Section Retry.
Context {FV : FieldValidators}.
Implicit Types (e : Env) (st : State) (task : pydict) (ex : exn).

Lemma defaulted_failure {A} (validate : pyval -> option A) k d d' data :
  match defaulted validate k d data, defaulted validate k d' data with
  | inl es, inl es' => es = es'
  | inr _, inr _ => True
  | _, _ => False
  end.
Proof.
  unfold defaulted. destruct (data !! k) as [v|]; [|done].
  by destruct (validate v).
Qed.

(** Whether and how a construction fails does not depend on the values the
    default factories would supply. *)
Lemma new_Document_failure uuid now uuid' now' data ex :
  new_Document uuid now data = inl ex ->
  new_Document uuid' now' data = inl ex.
Proof.
  unfold new_Document.
  pose proof (defaulted_failure validate_str "id" uuid uuid' data) as H1.
  pose proof (defaulted_failure validate_str "created_at" now now' data)
    as H2.
  destruct (defaulted validate_str "id" uuid data),
    (defaulted validate_str "id" uuid' data); try done;
  destruct (defaulted validate_str "created_at" now data),
    (defaulted validate_str "created_at" now' data); try done;
  destruct (required validate_str "content" data),
    (defaulted validate_dict "metadata" ∅ data);
    simplify_eq; done.
Qed.

Lemma new_Context_failure uuid now_c now_u uuid' now_c' now_u' data ex :
  new_Context uuid now_c now_u data = inl ex ->
  new_Context uuid' now_c' now_u' data = inl ex.
Proof.
  unfold new_Context.
  pose proof (defaulted_failure validate_str "id" uuid uuid' data) as H1.
  pose proof (defaulted_failure validate_str "created_at" now_c now_c' data)
    as H2.
  pose proof (defaulted_failure validate_str "updated_at" now_u now_u' data)
    as H3.
  destruct (defaulted validate_str "id" uuid data),
    (defaulted validate_str "id" uuid' data); try done;
  destruct (defaulted validate_str "created_at" now_c data),
    (defaulted validate_str "created_at" now_c' data); try done;
  destruct (defaulted validate_str "updated_at" now_u data),
    (defaulted validate_str "updated_at" now_u' data); try done;
  destruct (required validate_str "name" data),
    (defaulted validate_str_list "documents" [] data),
    (defaulted validate_opt_str "description" None data);
    simplify_eq; done.
Qed.

Lemma apply_task_failure e e' task st st' ex :
  apply_task e task st = inl ex -> apply_task e' task st' = inl ex.
Proof.
  unfold apply_task.
  destruct (task !! "type") as [[| | |task_type| |]|]; try done.
  destruct (decide (task_type = "create_document")).
  - destruct (unpack_kwargs _ _) as [ex1|data]; [done|].
    destruct (new_Document _ _ _) as [ex1|document] eqn:Hn; [|done].
    intros [= <-].
    by rewrite (new_Document_failure _ _ (uuid4 e') (datetime_now e') _ _ Hn).
  - destruct (decide (task_type = "create_context")); [|done].
    destruct (unpack_kwargs _ _) as [ex1|data]; [done|].
    destruct (new_Context _ _ _ _) as [ex1|context] eqn:Hn; [|done].
    intros [= <-].
    by rewrite (new_Context_failure _ _ _ (uuid4 e') (datetime_now e')
                  (datetime_now' e') _ _ Hn).
Qed.

(** The annotation is not read by the try body. *)
Lemma apply_task_annotated e task st v :
  apply_task e (<["error" := v]> task) st = apply_task e task st.
Proof.
  unfold apply_task. by rewrite !lookup_insert_ne by done.
Qed.

(** X14.  An intent that the processor has filed as failed fails again
    whenever it is retried: with any clock, any generated id and any state
    of the store the try body raises the same exception on the annotated
    entry, and the apply step files the very same entry again. *)
Theorem failed_intent_fails_again e task st ex :
  apply_task e task st = inl ex ->
  let entry := <["error" := PStr (exn_str ex)]> task in
  forall e' st' rest,
    apply_task e' entry st' = inl ex
    /\ (tasks (task_queue st') = entry :: rest ->
        exists st'',
          apply_step e' st' = inr st''
          /\ failed_tasks (task_queue st'') =
               failed_tasks (task_queue st') ++ [entry]
          /\ tasks (task_queue st'') = rest
          /\ documents_db st'' = documents_db st'
          /\ contexts_db st'' = contexts_db st').
Proof.
  intros Hfail entry e' st' rest.
  assert (forall s, apply_task e' entry s = inl ex) as Hagain.
  { intros s. unfold entry. rewrite apply_task_annotated.
    by apply (apply_task_failure e e' task st s). }
  split; [apply Hagain|].
  intros Ht. unfold apply_step. rewrite Ht. cbn [pop0]. rewrite Hagain.
  eexists. split; [reflexivity|].
  cbn [handle_failure set_failed_tasks set_tasks task_queue failed_tasks
       tasks documents_db contexts_db].
  split; [|done]. unfold entry. by rewrite insert_insert_eq.
Qed.
End Retry.

(** X15.  After [retry_failed_tasks] the health endpoint reports no failed
    task and a queue as long as the old pending and failed lists together;
    a second retry answers that there is nothing to retry and changes
    nothing; neither the health nor the failed-list endpoint changes the
    state, and the failed-list endpoint returns as many entries as the
    health endpoint counts. *)
Theorem retry_then_health (now : string) (st : State) :
  let st' := snd (retry_failed_tasks st) in
  fst (health_check now st') !! "failed_tasks" = Some (PInt 0)
  /\ fst (health_check now st') !! "queue_size" =
       Some (PInt (Z.of_nat (length (tasks (task_queue st))
                             + length (failed_tasks (task_queue st)))))
  /\ retry_failed_tasks st' = (message "No failed tasks to retry", st')
  /\ snd (health_check now st) = st
  /\ snd (get_failed_tasks st) = st
  /\ (exists entries,
        fst (get_failed_tasks st) !! "failed_tasks" = Some (PList entries)
        /\ fst (health_check now st) !! "failed_tasks" =
             Some (PInt (Z.of_nat (length entries)))).
Proof.
  assert (failed_tasks (task_queue (snd (retry_failed_tasks st))) = []
          /\ length (tasks (task_queue (snd (retry_failed_tasks st)))) =
               length (tasks (task_queue st))
                 + length (failed_tasks (task_queue st))) as [Hf Hl].
  { unfold retry_failed_tasks.
    destruct (failed_tasks (task_queue st)) as [|task failed] eqn:Hfl;
      cbn [snd set_failed_tasks set_tasks task_queue tasks failed_tasks].
    - rewrite Hfl. split; [done|]. simpl. lia.
    - by rewrite length_app. }
  cbv zeta. unfold health_check, get_failed_tasks. cbn [fst snd].
  rewrite Hf, Hl. simplify_map_eq.
  split; [done|]. split; [done|].
  split; [unfold retry_failed_tasks at 1; by rewrite Hf|].
  split; [done|]. split; [done|].
  eexists. split; [reflexivity|]. by rewrite length_fmap.
Qed.

(** * Further properties: invariants of the reachable states *)

Section Invariants.
Context {FV : FieldValidators}.
Implicit Types (e : Env) (st : State) (task : pydict) (ex : exn).

Lemma validate_documents_failed db context_id fuel i documents failed r
    failed' :
  validate_documents db context_id fuel i documents failed = Some (r, failed') ->
  exists removed,
    failed' = failed ++ (validation_failure context_id <$> removed).
Proof.
  revert i documents failed.
  induction fuel as [|fuel IH]; intros i documents failed; simpl.
  - destruct (documents !! i); [done|].
    intros [= <- <-]. exists []. by rewrite app_nil_r.
  - destruct (documents !! i) as [doc_id|].
    2:{ intros [= <- <-]. exists []. by rewrite app_nil_r. }
    destruct (db !! doc_id); [apply IH|].
    destruct (list_remove doc_id documents) as [ex|documents'].
    + intros [= <- <-]. by exists [doc_id].
    + intros (removed & ->)%IH. exists (doc_id :: removed).
      by rewrite <- app_assoc.
Qed.

(** What [update_context] can change, whatever its outcome. *)
Lemma update_context_frame now context_id updated_context st r st' :
  update_context now context_id updated_context st = Some (r, st') ->
  documents_db st' = documents_db st
  /\ tasks (task_queue st') = tasks (task_queue st)
  /\ rate_limiter st' = rate_limiter st
  /\ exists removed,
       failed_tasks (task_queue st') =
         failed_tasks (task_queue st)
           ++ (validation_failure context_id <$> removed).
Proof.
  unfold update_context.
  destruct (contexts_db st !! context_id).
  2:{ intros [= <- <-]. repeat split; try done. exists [].
      by rewrite app_nil_r. }
  destruct (validate_documents _ _ _ _ _ _) as [[[ex|documents] failed]|]
    eqn:Hloop; [| |done];
    apply validate_documents_failed in Hloop as [removed ->];
    intros [= <- <-]; repeat split; try done; by exists removed.
Qed.

Lemma validation_failure_annotated context_id doc_id :
  exists s,
    validation_failure context_id doc_id !! "error" = Some (PStr s)
    /\ s ≠ EmptyString.
Proof.
  eexists. unfold validation_failure. split; [by simplify_map_eq|].
  discriminate.
Qed.

Lemma documents_keyed_step st st' :
  documents_keyed st -> server_step st st' -> documents_keyed st'.
Proof.
  intros Hk Hstep. destruct Hstep as
    [e st st' Hturn|document st|context st|now_at document_id st
    |now context_id updated_context st r st' Hup|context_id st|st].
  - apply loop_turn_cases in Hturn
      as [[_ ->]|[(rl & _ & _ & ->)|(rl & task & rest & _ & _ & Ha)]];
      [done|done|].
    cbv zeta in Ha. destruct Ha as [Ha|(ex & _ & ->)]; [|done].
    apply apply_task_effect in Ha as [->|[[document ->]|[context ->]]];
      [done| |done].
    intros k stored. cbn [set_documents_db documents_db set_tasks
                          set_rate_limiter].
    destruct (decide (doc_id document = k)) as [<-|Hne].
    + rewrite lookup_insert_eq. by intros [= <-].
    + rewrite lookup_insert_ne by done. apply Hk.
  - done.
  - done.
  - unfold delete_document.
    destruct (documents_db st !! document_id); [|done].
    intros k stored. cbn [snd set_documents_db documents_db].
    intros Hd. apply lookup_delete_Some in Hd as [_ Hd]. by apply Hk.
  - apply update_context_frame in Hup as (Hd & _).
    unfold documents_keyed. by rewrite Hd.
  - unfold delete_context. by destruct (contexts_db st !! context_id).
  - unfold retry_failed_tasks.
    by destruct (failed_tasks (task_queue st)).
Qed.

Lemma failed_annotated_step st st' :
  failed_annotated st -> server_step st st' -> failed_annotated st'.
Proof.
  unfold failed_annotated. intros Hf Hstep. destruct Hstep as
    [e st st' Hturn|document st|context st|now_at document_id st
    |now context_id updated_context st r st' Hup|context_id st|st].
  - apply loop_turn_cases in Hturn
      as [[_ ->]|[(rl & _ & _ & ->)|(rl & task & rest & _ & _ & Ha)]];
      [done|done|].
    cbv zeta in Ha. destruct Ha as [Ha|(ex & Ha & ->)].
    + by apply apply_task_keeps in Ha as (-> & _).
    + cbn [handle_failure set_failed_tasks set_tasks set_rate_limiter
           task_queue failed_tasks].
      apply Forall_app. split; [done|]. constructor; [|done].
      exists (exn_str ex). rewrite lookup_insert_eq. split; [done|].
      by eapply apply_task_error_nonempty.
  - done.
  - done.
  - unfold delete_document. by destruct (documents_db st !! document_id).
  - apply update_context_frame in Hup as (_ & _ & _ & removed & ->).
    apply Forall_app. split; [done|].
    apply List.Forall_forall.
    intros task (ref & -> & _)%list_elem_of_In%list_elem_of_fmap.
    apply validation_failure_annotated.
  - unfold delete_context. by destruct (contexts_db st !! context_id).
  - unfold retry_failed_tasks.
    destruct (failed_tasks (task_queue st)) eqn:Hfl; simpl;
      [by rewrite Hfl|constructor].
Qed.

(** X16.  In every state the server can reach, each document is stored
    under its own id; so the id that the content endpoint renders for a
    reference is the id field of the document it found. *)
Theorem reachable_documents_keyed st :
  reachable st ->
  documents_keyed st
  /\ forall ref document,
       documents_db st !! ref = Some document ->
       rendered_id (render_document ref document) = Some (doc_id document).
Proof.
  intros Hreach.
  assert (documents_keyed st) as Hk.
  { apply (rtc_ind_r (R:=server_step) documents_keyed initial_state);
      [done| |exact Hreach].
    intros st1 st2 _ Hstep IH. by eapply documents_keyed_step. }
  split; [done|].
  intros ref document Hd. rewrite rendered_id_render. f_equal.
  symmetry. by apply Hk.
Qed.

(** X17.  In every state the server can reach, every entry of the failed
    list carries a non-empty [error] string, whether the processor filed
    it or [update_context] did. *)
Theorem reachable_failed_annotated st :
  reachable st -> failed_annotated st.
Proof.
  intros Hreach.
  apply (rtc_ind_r (R:=server_step) failed_annotated initial_state);
    [constructor| |exact Hreach].
  intros st1 st2 _ Hstep IH. by eapply failed_annotated_step.
Qed.
End Invariants.

Section QueueShape.
Context {FV : FieldValidators} {LV : LawfulValidators FV}.
Implicit Types (e : Env) (st : State) (task : pydict).

Lemma validation_entry_unrecognized task :
  validation_entry task -> unrecognized task.
Proof.
  intros (context_id & ref & ->). unfold unrecognized, validation_failure.
  split; by simplify_map_eq.
Qed.

(** The try body raises on no entry that the server itself has queued. *)
Lemma apply_task_queued e task st :
  creation_intent task \/ validation_entry task ->
  exists st', apply_task e task st = inr st'.
Proof.
  intros [[[document ->]|[context ->]]|Hv].
  - rewrite apply_create_document_task. eauto.
  - rewrite apply_create_context_task. eauto.
  - rewrite apply_task_unrecognized by by apply validation_entry_unrecognized.
    eauto.
Qed.

Lemma queue_shape_step st st' :
  queue_shape st -> server_step st st' -> queue_shape st'.
Proof.
  unfold queue_shape. intros [Hp Hf] Hstep. destruct Hstep as
    [e st st' Hturn|document st|context st|now_at document_id st
    |now context_id updated_context st r st' Hup|context_id st|st].
  - apply loop_turn_cases in Hturn
      as [[_ ->]|[(rl & _ & _ & ->)|(rl & task & rest & Ht & _ & Ha)]];
      [done|done|].
    rewrite Ht in Hp. apply Forall_cons in Hp as [Hhead Hrest].
    cbv zeta in Ha. destruct Ha as [Ha|(ex & Ha & ->)].
    + by apply apply_task_keeps in Ha as (-> & _).
    + destruct (apply_task_queued e task
                  (set_tasks rest (set_rate_limiter rl st)) Hhead)
        as [st2 Hok].
      congruence.
  - cbn [create_document snd set_tasks task_queue tasks failed_tasks].
    split; [|done]. apply Forall_app. split; [done|].
    constructor; [|done]. left. left. by eexists.
  - cbn [create_context snd set_tasks task_queue tasks failed_tasks].
    split; [|done]. apply Forall_app. split; [done|].
    constructor; [|done]. left. right. by eexists.
  - unfold delete_document. by destruct (documents_db st !! document_id).
  - apply update_context_frame in Hup as (_ & -> & _ & removed & ->).
    split; [done|]. apply Forall_app. split; [done|].
    apply List.Forall_forall.
    intros task (ref & -> & _)%list_elem_of_In%list_elem_of_fmap.
    by exists context_id, ref.
  - unfold delete_context. by destruct (contexts_db st !! context_id).
  - unfold retry_failed_tasks.
    destruct (failed_tasks (task_queue st)) eqn:Hfl; simpl;
      [by rewrite Hfl|].
    split; [|done]. apply Forall_app. split; [done|].
    eapply List.Forall_impl; [|exact Hf]. intros task Hv. by right.
Qed.

(** X18.  In every state the server can reach, the pending list holds
    only intents queued by the creation endpoints and validation entries
    moved back by a retry, and the failed list holds only validation
    entries of [update_context].  So the try body raises on no pending
    intent: the processor itself never files a failure, and a validation
    entry that is retried is dropped by the step that takes it. *)
Theorem reachable_queue_shape st :
  reachable st ->
  queue_shape st
  /\ (forall e task rest,
        tasks (task_queue st) = task :: rest ->
        exists st',
          apply_step e st = inr st'
          /\ failed_tasks (task_queue st') = failed_tasks (task_queue st)
          /\ tasks (task_queue st') = rest
          /\ (validation_entry task ->
              documents_db st' = documents_db st
              /\ contexts_db st' = contexts_db st)).
Proof.
  intros Hreach.
  assert (queue_shape st) as Hq.
  { apply (rtc_ind_r (R:=server_step) queue_shape initial_state);
      [by split| |exact Hreach].
    intros st1 st2 _ Hstep IH. by eapply queue_shape_step. }
  split; [done|].
  intros e task rest Ht. destruct Hq as [Hp _]. rewrite Ht in Hp.
  apply Forall_cons in Hp as [Hhead _].
  unfold apply_step. rewrite Ht. cbn [pop0].
  destruct (apply_task_queued e task (set_tasks rest st) Hhead)
    as [st2 Hok].
  rewrite Hok. exists st2. split; [done|].
  pose proof (apply_task_keeps _ _ _ _ Hok) as (Hqueue & _).
  rewrite Hqueue. cbn [set_tasks task_queue failed_tasks tasks].
  split; [done|]. split; [done|].
  intros Hv. rewrite (apply_task_unrecognized e task _
                        (validation_entry_unrecognized _ Hv)) in Hok.
  by injection Hok as <-.
Qed.
End QueueShape.

(** X19.  A call that names an id the store does not hold answers 404 and
    changes nothing: [delete_document] does not touch contexts that still
    list the id, [update_context] files no validation entry, and the reads
    never change the state whatever they answer. *)
Theorem not_found_changes_nothing (st : State) (key : string) :
  (documents_db st !! key = None ->
   (forall now_at,
      delete_document now_at key st
        = (inl (HTTPException 404 "Document not found"), st))
   /\ get_document key st
        = (inl (HTTPException 404 "Document not found"), st))
  /\ (contexts_db st !! key = None ->
      (forall now updated_context,
         update_context now key updated_context st
           = Some (inl (HTTPException 404 "Context not found"), st))
      /\ delete_context key st
           = (inl (HTTPException 404 "Context not found"), st)
      /\ get_context key st
           = (inl (HTTPException 404 "Context not found"), st))
  /\ snd (get_document key st) = st
  /\ snd (get_context key st) = st.
Proof.
  unfold delete_document, get_document, update_context, delete_context,
    get_context.
  split; [intros ->; done|]. split; [intros ->; done|].
  split; [by destruct (documents_db st !! key)
         |by destruct (contexts_db st !! key)].
Qed.

(** * Instances of the further properties *)

Lemma strict_validators_lawful : LawfulValidators strict_validators.
Proof. split; done. Qed.

Lemma verify_api_key_accepts_witness :
  verify_api_key (Some "secret") (Some "wrong")
    = inl (HTTPException 401 "Invalid API key").
Proof.
  destruct (verify_api_key_accepts (Some "secret") (Some "wrong"))
    as (_ & _ & _ & Hrefused).
  destruct (verify_api_key (Some "secret") (Some "wrong")) as [ex|key] eqn:Hv.
  - f_equal. by apply Hrefused.
  - vm_compute in Hv. discriminate.
Defined.

Lemma new_Document_dict_witness :
  @new_Document strict_validators "unused" "unused"
    (Document_dict sample_new_document) = inr sample_new_document.
Proof.
  apply (@new_Document_dict strict_validators strict_validators_lawful).
Defined.

Lemma new_Context_dict_witness :
  @new_Context strict_validators "unused" "unused" "unused"
    (Context_dict sample_context_two) = inr sample_context_two.
Proof.
  apply (@new_Context_dict strict_validators strict_validators_lawful).
Defined.

Lemma create_document_then_process_witness :
  exists st2,
    @loop_turn strict_validators sample_env
      (snd (create_document sample_new_document sample_state)) = inr st2
    /\ fst (get_document "d9" st2) = inr sample_new_document.
Proof.
  destruct (@create_document_then_process strict_validators
              strict_validators_lawful sample_env sample_new_document
              sample_state (mkRateLimiter 60 [0%Q]) eq_refl eq_refl)
    as (_ & _ & st2 & Hturn & Hget & _).
  by exists st2.
Defined.

Lemma create_context_then_process_witness :
  exists st2,
    @loop_turn strict_validators sample_env
      (snd (create_context sample_context_two sample_state)) = inr st2
    /\ fst (get_context "c2" st2) = inr sample_context_two.
Proof.
  destruct (@create_context_then_process strict_validators
              strict_validators_lawful sample_env sample_context_two
              sample_state (mkRateLimiter 60 [0%Q]) eq_refl eq_refl)
    as (_ & st2 & Hturn & Hget & _).
  by exists st2.
Defined.

Lemma delete_document_frame_witness :
  task_queue (snd (delete_document (fun _ => "2024-01-02T00:00:00") "d"
                     sample_state_twice))
    = task_queue sample_state_twice.
Proof.
  apply (delete_document_frame (fun _ => "2024-01-02T00:00:00") "d"
           sample_state_twice).
  eexists. vm_compute. reflexivity.
Defined.

Lemma delete_document_restores_integrity_witness :
  "d" ∉ ctx_documents
          (mkContext "c" "notes" [] None
             "2024-01-01T00:00:01" "2024-01-02T00:00:00").
Proof.
  apply (delete_document_restores_integrity
           (fun _ => "2024-01-02T00:00:00") "d" sample_state) with (k := "c").
  - eexists. vm_compute. reflexivity.
  - intros k c Hc. unfold sample_state in Hc. cbn [contexts_db] in Hc.
    apply lookup_singleton_Some in Hc as [_ <-].
    repeat constructor; set_solver.
  - vm_compute. reflexivity.
Defined.

Lemma deleted_document_not_rendered_witness :
  "d" ∉
    (omap rendered_id
       (render_documents
          (documents_db
             (snd (delete_document (fun _ => "2024-01-02T00:00:00") "d"
                     sample_state_twice)))
          ["d"; "d"])).
Proof.
  apply (deleted_document_not_rendered (fun _ => "2024-01-02T00:00:00") "d"
           sample_state_twice).
  eexists. vm_compute. reflexivity.
Defined.

Lemma update_context_filters_witness :
  exists committed st' removed,
    update_context "2024-01-02T00:00:00" "c" sample_update_unknown sample_state
      = Some (inr committed, st')
    /\ sublist (ctx_documents committed) ["x"; "y"]
    /\ ["x"; "y"] ≡ₚ ctx_documents committed ++ removed.
Proof.
  destruct (update_context_filters "2024-01-02T00:00:00" "c"
              sample_update_unknown sample_state)
    as (committed & st' & removed & Hup & Hsub & _ & Hperm & _).
  { eexists. vm_compute. reflexivity. }
  by exists committed, st', removed.
Defined.

Lemma update_context_filter_on_write_witness :
  exists committed st',
    update_context "2024-01-02T00:00:00" "c" sample_context_two sample_state
      = Some (inr committed, st')
    /\ ctx_documents committed = ["d"; "d"]
    /\ failed_tasks (task_queue st') = [validation_failure "c" "gone"].
Proof.
  destruct (update_context_filter_on_write "2024-01-02T00:00:00" "c"
              sample_context_two sample_state)
    as (committed & st' & Hup & Hdocs & Hfailed & _).
  { eexists. vm_compute. reflexivity. }
  { vm_compute. reflexivity. }
  exists committed, st'. split; [done|]. split.
  - rewrite Hdocs. vm_compute. reflexivity.
  - rewrite Hfailed. vm_compute. reflexivity.
Defined.

Lemma loop_turn_without_work_witness :
  @loop_turn strict_validators sample_env sample_state = inr sample_state.
Proof.
  apply (@loop_turn_without_work strict_validators sample_env sample_state).
  reflexivity.
Defined.

Lemma processor_monotone_witness :
  exists st',
    @process_task_queue strict_validators [sample_env; sample_env_later]
      (set_tasks [sample_bad_task; sample_good_task] sample_state) = inr st'
    /\ is_Some (documents_db st' !! "d")
    /\ [] `prefix_of` failed_tasks (task_queue st').
Proof.
  eexists. split; [vm_compute; reflexivity|].
  match goal with
  | |- is_Some (documents_db ?s !! _) /\ _ =>
      destruct (@processor_monotone strict_validators
                  [sample_env; sample_env_later]
                  (set_tasks [sample_bad_task; sample_good_task] sample_state)
                  s) as (Hd & _ & Hf & _)
  end.
  { vm_compute. reflexivity. }
  split; [|exact Hf].
  apply Hd. eexists. vm_compute. reflexivity.
Defined.

Lemma processor_throughput_witness :
  exists st',
    @process_task_queue strict_validators [sample_env; sample_env_later]
      sample_state_tight = inr st'
    /\ (Z.of_nat (length (tasks (task_queue sample_state_tight)))
          - Z.of_nat (length (tasks (task_queue st'))) <= 1 - 0)%Z.
Proof.
  eexists. split; [vm_compute; reflexivity|].
  match goal with
  | |- (_ - Z.of_nat (length (tasks (task_queue ?s))) <= _)%Z =>
      apply (@processor_throughput strict_validators
               [sample_env; sample_env_later] sample_state_tight s)
  end.
  - vm_compute. reflexivity.
  - vm_compute. reflexivity.
  - vm_compute. discriminate.
Defined.

Lemma failed_intent_fails_again_witness :
  @apply_task strict_validators sample_env_later
    (<["error" :=
         PStr (exn_str (ValidationError "Document"
                          [("content", "field required")]))]>
       sample_bad_task)
    sample_state_tight
  = inl (ValidationError "Document" [("content", "field required")]).
Proof.
  apply (@failed_intent_fails_again strict_validators sample_env
           sample_bad_task sample_state
           (ValidationError "Document" [("content", "field required")])
           eq_refl sample_env_later sample_state_tight []).
Defined.

Lemma reachable_documents_keyed_witness :
  exists st,
    documents_db st !! "d9" = Some sample_new_document
    /\ documents_keyed st.
Proof.
  eexists. split; cycle 1.
  { refine (proj1 (@reachable_documents_keyed strict_validators _ _)).
    eapply rtc_l; [apply (step_create_document sample_new_document)|].
    eapply rtc_l;
      [apply (step_loop_turn sample_env); vm_compute; reflexivity|].
    apply rtc_refl. }
  vm_compute. reflexivity.
Defined.

Lemma reachable_failed_annotated_witness :
  exists st,
    failed_tasks (task_queue st) = [validation_failure "c" "x"]
    /\ failed_annotated st.
Proof.
  eexists. split; cycle 1.
  { apply (@reachable_failed_annotated strict_validators).
    eapply rtc_l; [apply (step_create_context sample_context)|].
    eapply rtc_l;
      [apply (step_loop_turn sample_env); vm_compute; reflexivity|].
    eapply rtc_l;
      [eapply (step_update_context "2024-01-02T00:00:00" "c"
                sample_update_unknown); vm_compute; reflexivity|].
    apply rtc_refl. }
  vm_compute. reflexivity.
Defined.

Lemma reachable_queue_shape_witness :
  exists st, tasks (task_queue st) = [validation_failure "c" "x"]
             /\ queue_shape st.
Proof.
  eexists. split; cycle 1.
  { apply (@reachable_queue_shape strict_validators
             strict_validators_lawful).
    eapply rtc_l; [apply (step_create_context sample_context)|].
    eapply rtc_l;
      [apply (step_loop_turn sample_env); vm_compute; reflexivity|].
    eapply rtc_l;
      [eapply (step_update_context "2024-01-02T00:00:00" "c"
                sample_update_unknown); vm_compute; reflexivity|].
    eapply rtc_l; [apply step_retry_failed_tasks|].
    apply rtc_refl. }
  vm_compute. reflexivity.
Defined.

Lemma not_found_changes_nothing_witness :
  delete_context "missing" sample_state
    = (inl (HTTPException 404 "Context not found"), sample_state).
Proof.
  apply (not_found_changes_nothing sample_state "missing"). reflexivity.
Defined.
